(** * Block library: page-break block settings and the native audio Player

    A shallow embedding of [packages/block-library/src/nextpage/index.js]:
    the page-break block's exported [name] and [settings], and the
    function component [Player] with its press handler [onPressListen],
    its derived style objects, the file-name splitting behind the title
    and the subtitle, and the [paused] flag driven by the fullscreen
    callbacks of the embedded video player. *)

From Stdlib Require Import Ascii String ZArith.
From stdpp Require Import base strings list gmap pretty.

(** ** The fragment of JavaScript the module relies on *)

Module JS.

(** Strings are sequences of code units.  Every operation below either
    compares a unit with the separator ['.'] or moves units around, so
    the width of a unit plays no role. *)

(** [Boolean( s )] for a value that is a string or [undefined]. *)
Definition truthy (v : option string) : bool :=
  match v with
  | None => false
  | Some s => negb (String.eqb s "")
  end.

(** [s.split( sep )] for a separator of one unit.  The result always
    has at least one element, [''.split( '.' )] being [ [ '' ] ]. *)
Fixpoint split (sep : ascii) (s : string) : list string :=
  match s with
  | EmptyString => [EmptyString]
  | String c s' =>
      if Ascii.eqb c sep then EmptyString :: split sep s'
      else match split sep s' with
           | [] => [String c EmptyString]
           | p :: ps => String c p :: ps
           end
  end.

(** [parts.pop()]: the removed last element ([undefined] on an empty
    array) together with the array as it is left behind. *)
Definition pop (parts : list string) : option string * list string :=
  (last parts, removelast parts).

(** [parts.join( sep )]. *)
Fixpoint join (sep : string) (parts : list string) : string :=
  match parts with
  | [] => ""
  | [p] => p
  | p :: ps => p +:+ sep +:+ join sep ps
  end.

(** [s.lastIndexOf( c )], with [None] for the [-1] of a miss. *)
Fixpoint lastIndexOf (c : ascii) (s : string) : option nat :=
  match s with
  | EmptyString => None
  | String a s' =>
      match lastIndexOf c s' with
      | Some i => Some (S i)
      | None => if Ascii.eqb a c then Some 0 else None
      end
  end.

(** Does the unit [c] occur in [s]? *)
Fixpoint occurs (c : ascii) (s : string) : bool :=
  match s with
  | EmptyString => false
  | String a s' => Ascii.eqb a c || occurs c s'
  end.

(** A style object: property name to value.  The spread
    [{ ...a, ...b }] copies [a] and then lets [b] overwrite, and
    [...( cond && b )] spreads nothing when [cond] is falsy. *)
Definition spread (a b : gmap string string) : gmap string string := b ∪ a.

Definition guarded (cond : bool) (b : gmap string string) : gmap string string :=
  if cond then b else ∅.

(** How a promise settles. *)
Inductive settled (A : Type) : Type :=
| Resolved (a : A)
| Rejected (reason : string).
Arguments Resolved {A} a.
Arguments Rejected {A} reason.

(** The value a settled promise resolved to, if it did. *)
Definition resolution {A} (s : settled A) : option A :=
  match s with
  | Resolved a => Some a
  | Rejected _ => None
  end.

End JS.

Abbreviation Style := (gmap string string).

(** ** The host: what the module imports and does not define itself *)

(** [styles.scss] as the component reads it, one field per class it
    mentions. *)
Record StyleSheet : Type := {
  container : Style;            containerDark : Style;
  icon : Style;                 iconDark : Style;
  iconDisabled : Style;         iconDisabledDark : Style;
  iconContainer : Style;        iconContainerDark : Style;
  titleContainer : Style;
  titleContainerIOS : Style;    titleContainerAndroid : Style;
  title : Style;                titleDark : Style;
  uploadFailed : Style;         uploadFailedDark : Style;
  subtitle : Style;             subtitleDark : Style;
  buttonText : Style;
  buttonTextIOS : Style;        buttonTextAndroid : Style;
  subtitleContainer : Style;    errorIcon : Style
}.

(** [Platform.OS], the translation function [__] of [@wordpress/i18n],
    [String.prototype.toUpperCase] and the style sheet. *)
Class Host : Type := {
  Platform_OS : string;
  __ : string → string;
  toUpperCase : string → string;
  styles : StyleSheet
}.

(** What [Linking] answers for a URL: how the promise returned by
    [canOpenURL] settles, and how the one returned by [openURL] does. *)
Record Linking : Type := {
  canOpenURL_settles : string → JS.settled bool;
  openURL_settles : string → JS.settled unit
}.

(** ** The page-break block *)

Module NextPage.

(** Values a module can export or import.  [JImported] stands for a
    binding defined by another module ([icon], [edit], [save],
    [transforms]), of which this module only passes the reference on. *)
#[local] Set Warnings "-register-all".
Inductive jsval : Type :=
| JUndefined
| JString (s : string)
| JArray (items : list jsval)
| JObject (fields : list (string * jsval))
| JImported (binding : string).

(** Property read [o.key]. *)
Fixpoint lookup_field (key : string) (fields : list (string * jsval)) : jsval :=
  match fields with
  | [] => JUndefined
  | (k, v) :: rest => if String.eqb k key then v else lookup_field key rest
  end.

Definition get (o : jsval) (key : string) : jsval :=
  match o with
  | JObject fields => lookup_field key fields
  | _ => JUndefined
  end.

(** [Object.keys( o )]. *)
Definition keys (o : jsval) : list string :=
  match o with
  | JObject fields => fields.*1
  | _ => []
  end.

Section Exports.
Context `{Host}.
(** [block.json], parsed. *)
Variable metadata : jsval.

Definition icon : jsval := JImported "pageBreak".
Definition edit : jsval := JImported "./edit".
Definition save : jsval := JImported "./save".
Definition transforms : jsval := JImported "./transforms".

(** [const { name } = metadata;] *)
Definition name : jsval := get metadata "name".

Definition settings : jsval :=
  JObject
    [ ("title", JString (__ "Page Break"));
      ("description",
        JString (__ "Separate your content into a multi-page experience."));
      ("icon", icon);
      ("keywords", JArray [ JString (__ "next page"); JString (__ "pagination") ]);
      ("example", JObject []);
      ("transforms", transforms);
      ("edit", edit);
      ("save", save) ].

(** The module's exports: [metadata], [name] and [settings]. *)
Definition exports : jsval :=
  JObject [ ("metadata", metadata); ("name", name); ("settings", settings) ].
End Exports.

End NextPage.

(** ** The audio Player *)

Module AudioPlayer.
Import JS.

(** A handle on the mounted [VideoPlayer], as the [ref] callback
    receives it. *)
Definition playerRef : Type := nat.

(** What the component does to the outside, in the order it does it. *)
Inductive effect : Type :=
| CanOpenURL (url : string)
| OpenURL (url : string)
| AlertShown (heading message : string)
| PresentFullscreenPlayer (ref : playerRef).

(** What survives between renders and handler calls: the [paused] cell
    of [useState], the [player] slot the [ref] callback writes through
    [this], and the log of effects so far. *)
Record World : Type := {
  paused : bool;
  player : option playerRef;
  log : list effect
}.

Definition emit (e : effect) (w : World) : World :=
  {| paused := paused w; player := player w; log := log w ++ [e] |}.

(** Code that runs against the world: it completes with a value or
    throws (a promise: resolves or rejects), and leaves a world behind.
    A promise is run to the point where it settles, with the answers
    [Linking] gives, and its reactions right after.  The reactions of
    this component read nothing of the world and only append to the log,
    so running them later, between other events, would move their
    entries in the log and change nothing else. *)
Definition M (A : Type) : Type := Linking → World → settled A * World.

Definition ret {A} (a : A) : M A := fun _ w => (Resolved a, w).

Definition bind {A B} (m : M A) (f : A → M B) : M B :=
  fun net w =>
    match m net w with
    | (Resolved a, w') => f a net w'
    | (Rejected r, w') => (Rejected r, w')
    end.

(** [p.then( f )]: [f] runs when [p] resolves and its own outcome is
    adopted; a rejection of [p] passes [f] by. *)
Definition then_ {A B} (p : M A) (f : A → M B) : M B := bind p f.

(** [p.catch( g )]: [g] runs when [p] rejects and its outcome is
    adopted; a resolution of [p] passes through. *)
Definition catch_ {A} (p : M A) (g : string → M A) : M A :=
  fun net w =>
    match p net w with
    | (Resolved a, w') => (Resolved a, w')
    | (Rejected r, w') => g r net w'
    end.

(** A promise used as an expression statement: whatever it settles to is
    dropped and the statement completes normally. *)
Definition forget {A} (p : M A) : M unit :=
  fun net w => (Resolved tt, snd (p net w)).

#[export] Instance M_ret : MRet M := @ret.
#[export] Instance M_bind : MBind M := fun A B f m => bind m f.

(** [Linking.canOpenURL( url )] *)
Definition Linking_canOpenURL (url : string) : M bool :=
  fun net w => (canOpenURL_settles net url, emit (CanOpenURL url) w).

(** [Linking.openURL( url )] *)
Definition Linking_openURL (url : string) : M unit :=
  fun net w => (openURL_settles net url, emit (OpenURL url) w).

(** [Alert.alert( heading, message )] *)
Definition Alert_alert (heading message : string) : M unit :=
  fun _ w => (Resolved tt, emit (AlertShown heading message) w).

(** [this.player.presentFullscreenPlayer()] *)
Definition presentFullscreenPlayer (ref : playerRef) : M unit :=
  fun _ w => (Resolved tt, emit (PresentFullscreenPlayer ref) w).

(** Reading and writing [this.player]. *)
Definition this_player : M (option playerRef) :=
  fun _ w => (Resolved (player w), w).

Definition set_this_player (r : option playerRef) : M unit :=
  fun _ w => (Resolved tt, {| paused := paused w; player := r; log := log w |}).

(** [setPaused( b )] *)
Definition setPaused (b : bool) : M unit :=
  fun _ w => (Resolved tt, {| paused := b; player := player w; log := log w |}).

(** The props the component destructures. *)
Record Props : Type := {
  getStylesFromColorScheme : Style → Style → Style;
  source : option string;
  isUploadInProgress : bool;
  fileName : option string;
  isUploadFailed : bool
}.

(** The [TouchableWithoutFeedback] around the [Listen] text. *)
Record ListenControl : Type := {
  accessibilityLabel : string;
  accessibilityRole : string;
  accessibilityHint : string;
  onPress : M unit;
  buttonTextStyle : Style;
  buttonLabel : string
}.

(** The [VideoPlayer] element. *)
Record VideoPlayerElement : Type := {
  uri : option string;
  pausedProp : bool;
  refCallback : option playerRef → M unit;
  controls : bool;
  ignoreSilentSwitch : string;
  onFullscreenPlayerWillPresent : M unit;
  onFullscreenPlayerDidDismiss : M unit
}.

(** What one call of [Player] returns: the element tree, flattened to
    the values the JSX puts into it.  [warningIcon] and [listen] are the
    two conditionally rendered elements. *)
Record Rendered : Type := {
  containerStyle : Style;
  iconContainerStyle : Style;
  finalIconStyle : Style;
  titleContainerStyle : Style;
  titleStyle : Style;
  titleText : string;
  subtitleContainerStyle : Style;
  warningIcon : option Style;
  finalSubtitleStyle : Style;
  subtitleText : string;
  listen : option ListenControl;
  video : VideoPlayerElement
}.

Section Component.
Context `{Host}.

(** [const isIOS = Platform.OS === 'ios';] *)
Definition isIOS : bool := String.eqb Platform_OS "ios".

(** The promise chain a press starts:
    [Linking.canOpenURL( source ).then( ... ).catch( ... )]. *)
Definition listenChain (url : string) : M unit :=
  catch_
    (then_ (Linking_canOpenURL url)
       (fun supported : bool =>
          if negb supported then
            Alert_alert (__ "Problem opening the audio")
                        (__ "No application can handle this request.")
          else Linking_openURL url))
    (fun _ =>
       Alert_alert (__ "Problem opening the audio")
                   (__ "An unknown error occurred. Please try again.")).

Definition onPressListen (props : Props) : M unit :=
  match source props with
  | Some url =>
      if truthy (Some url) then
        p ← this_player;
        match isIOS, p with
        | true, Some ref => presentFullscreenPlayer ref
        | _, _ => forget (listenChain url)
        end
      else mret tt
  | None => mret tt
  end.

(** [const isDisabled = isUploadFailed || isUploadInProgress;] *)
Definition isDisabled (props : Props) : bool :=
  isUploadFailed props || isUploadInProgress props.

(** [title] and [extension] as the [if ( fileName )] block leaves them.
    [parts.pop()] yields [undefined] on an empty array, and calling
    [toUpperCase] on that throws. *)
Definition titleAndExtension (props : Props) : settled (string * string) :=
  match fileName props with
  | Some f =>
      if truthy (Some f) then
        let parts := split "." f in
        let '(popped, parts) := pop parts in
        match popped with
        | Some e => Resolved (join "." parts, toUpperCase e)
        | None => Rejected "TypeError"
        end
      else Resolved ("", "")
  | None => Resolved ("", "")
  end.

Definition getSubtitleValue (props : Props) (extension : string) : string :=
  if isUploadInProgress props then __ "Uploading…"
  else if isUploadFailed props then
    __ "Failed to insert audio file. Please tap for options."
  else extension +:+ __ " audio file".

(** The function component.  [paused] is what [useState( true )] hands
    back for this render. *)
Definition Player (props : Props) (paused : bool) : settled Rendered :=
  let gs := getStylesFromColorScheme props in
  let containerStyle := gs (container styles) (containerDark styles) in
  let iconStyle := gs (icon styles) (iconDark styles) in
  let iconDisabledStyle := gs (iconDisabled styles) (iconDisabledDark styles) in
  let finalIconStyle :=
    spread iconStyle (guarded (isDisabled props) iconDisabledStyle) in
  let iconContainerStyle :=
    gs (iconContainer styles) (iconContainerDark styles) in
  let titleContainerStyle :=
    spread (titleContainer styles)
      (if isIOS then titleContainerIOS styles else titleContainerAndroid styles) in
  let titleStyle := gs (title styles) (titleDark styles) in
  let uploadFailedStyle := gs (uploadFailed styles) (uploadFailedDark styles) in
  let subtitleStyle := gs (subtitle styles) (subtitleDark styles) in
  let finalSubtitleStyle :=
    spread subtitleStyle (guarded (isUploadFailed props) uploadFailedStyle) in
  let buttonTextStyle :=
    spread (buttonText styles)
      (if isIOS then buttonTextIOS styles else buttonTextAndroid styles) in
  match titleAndExtension props with
  | Rejected r => Rejected r
  | Resolved (title, extension) =>
      Resolved
        {| containerStyle := containerStyle;
           iconContainerStyle := iconContainerStyle;
           finalIconStyle := finalIconStyle;
           titleContainerStyle := titleContainerStyle;
           titleStyle := titleStyle;
           titleText := title;
           subtitleContainerStyle := subtitleContainer styles;
           warningIcon :=
             if isUploadFailed props
             then Some (spread (errorIcon styles) uploadFailedStyle)
             else None;
           finalSubtitleStyle := finalSubtitleStyle;
           subtitleText := getSubtitleValue props extension;
           listen :=
             if negb (isDisabled props) then
               Some {| accessibilityLabel := __ "Audio Player";
                       accessibilityRole := "button";
                       accessibilityHint := __ "Double tap to listen the audio file";
                       onPress := onPressListen props;
                       buttonTextStyle := buttonTextStyle;
                       buttonLabel := __ "Listen" |}
             else None;
           video :=
             {| uri := source props;
                pausedProp := paused;
                refCallback := set_this_player;
                controls := false;
                ignoreSilentSwitch := "ignore";
                onFullscreenPlayerWillPresent := setPaused false;
                onFullscreenPlayerDidDismiss := setPaused true |} |}
  end.

(** What the host can do to a mounted Player. *)
Inductive event : Type :=
| PressListen
| FullscreenPlayerWillPresent
| FullscreenPlayerDidDismiss
| RefCallback (r : option playerRef).

(** The handler the element tree holds for an event.  A press reaches
    [onPress] only through a [Listen] control that is on screen. *)
Definition dispatch (v : Rendered) (e : event) : M unit :=
  match e with
  | PressListen =>
      match listen v with
      | Some control => onPress control
      | None => mret tt
      end
  | FullscreenPlayerWillPresent => onFullscreenPlayerWillPresent (video v)
  | FullscreenPlayerDidDismiss => onFullscreenPlayerDidDismiss (video v)
  | RefCallback r => refCallback (video v) r
  end.

(** The world as the first render finds it: [useState( true )], no
    reference yet, nothing done. *)
Definition mounted : World := {| paused := true; player := None; log := [] |}.

(** One event against the tree of the current render. *)
Definition step (props : Props) (net : Linking) (w : World) (e : event) : World :=
  match Player props (paused w) with
  | Resolved v => snd (dispatch v e net w)
  | Rejected _ => w
  end.

(** A sequence of events, each against a fresh render. *)
Definition run (props : Props) (net : Linking) (w : World) (events : list event) : World :=
  fold_left (step props net) events w.

End Component.

(** Bookkeeping over effect logs. *)
Definition isCheck (e : effect) : bool :=
  match e with CanOpenURL _ => true | _ => false end.

Definition isOpen (e : effect) : bool :=
  match e with OpenURL _ => true | _ => false end.

Definition isAlert (e : effect) : bool :=
  match e with AlertShown _ _ => true | _ => false end.

Definition count (p : effect → bool) (l : list effect) : nat :=
  length (List.filter p l).

(** The style objects and the subtitle of a rendered tree. *)
Definition styleObjects (v : Rendered) : list Style :=
  [ containerStyle v; iconContainerStyle v; finalIconStyle v;
    titleContainerStyle v; titleStyle v; subtitleContainerStyle v;
    finalSubtitleStyle v ]
  ++ option_list (warningIcon v)
  ++ option_list (buttonTextStyle <$> listen v).

End AudioPlayer.

(** ** The specification's wording, for comparison *)

Module Spec.
Import JS AudioPlayer.

(** "The substring after the last ['.']": [s.substring( i + 1 )] for
    [i = s.lastIndexOf( '.' )], which is all of [s] when [i] is [-1]. *)
Definition afterLastDot (s : string) : string :=
  match lastIndexOf "." s with
  | Some i => String.substring (S i) (String.length s - S i) s
  | None => s
  end.

(** "Everything before that last ['.']": [s.substring( 0, i )], which is
    empty when [i] is [-1]. *)
Definition beforeLastDot (s : string) : string :=
  match lastIndexOf "." s with
  | Some i => String.substring 0 i s
  | None => ""
  end.

(** The [paused] flag as a two-state machine: only the two fullscreen
    callbacks move it. *)
Definition pausedAfter (p : bool) (e : event) : bool :=
  match e with
  | FullscreenPlayerWillPresent => false
  | FullscreenPlayerDidDismiss => true
  | PressListen | RefCallback _ => p
  end.

(** What a press with a usable source adds to the log once the promise
    chain has run, by how [Linking] answers. *)
Definition pressOutcome `{Host} (net : Linking) (url : string) : list effect :=
  let unknown :=
    AlertShown (__ "Problem opening the audio")
               (__ "An unknown error occurred. Please try again.") in
  match canOpenURL_settles net url with
  | Resolved false =>
      [ CanOpenURL url;
        AlertShown (__ "Problem opening the audio")
                   (__ "No application can handle this request.") ]
  | Resolved true =>
      match openURL_settles net url with
      | Resolved _ => [ CanOpenURL url; OpenURL url ]
      | Rejected _ => [ CanOpenURL url; OpenURL url; unknown ]
      end
  | Rejected _ => [ CanOpenURL url; unknown ]
  end.

End Spec.

(** ** Concrete hosts and props to run the definitions on *)

Module Sample.
Import JS AudioPlayer.

Definition upperUnit (c : ascii) : ascii :=
  let n := nat_of_ascii c in
  if (97 <=? n)%nat && (n <=? 122)%nat then ascii_of_nat (n - 32) else c.

Fixpoint upper (s : string) : string :=
  match s with
  | EmptyString => EmptyString
  | String c s' => String (upperUnit c) (upper s')
  end.

Definition sheet : StyleSheet :=
  {| container := {[ "padding" := "12" ]};
     containerDark := {[ "backgroundColor" := "#1c1c1e" ]};
     icon := {[ "fill" := "#7b9ab1" ]};
     iconDark := {[ "fill" := "#c3c4c7" ]};
     iconDisabled := {[ "fill" := "#e9eff3" ]};
     iconDisabledDark := {[ "fill" := "#3c434a" ]};
     iconContainer := {[ "width" := "24" ]};
     iconContainerDark := ∅;
     titleContainer := {[ "flex" := "1" ]};
     titleContainerIOS := {[ "paddingLeft" := "8" ]};
     titleContainerAndroid := {[ "paddingLeft" := "12" ]};
     title := {[ "color" := "#2e4453" ]};
     titleDark := {[ "color" := "#ffffff" ]};
     uploadFailed := {[ "color" := "#d63638" ]};
     uploadFailedDark := {[ "color" := "#ff8085" ]};
     subtitle := {[ "color" := "#87a6bc" ]};
     subtitleDark := {[ "color" := "#a7aaad" ]};
     buttonText := {[ "color" := "#0087be" ]};
     buttonTextIOS := {[ "fontSize" := "17" ]};
     buttonTextAndroid := {[ "fontSize" := "14" ]};
     subtitleContainer := {[ "flexDirection" := "row" ]};
     errorIcon := {[ "width" := "16" ]} |}.

Definition android : Host :=
  {| Platform_OS := "android"; __ := fun s => s; toUpperCase := upper; styles := sheet |}.

Definition ios : Host :=
  {| Platform_OS := "ios"; __ := fun s => s; toUpperCase := upper; styles := sheet |}.

Definition light (lightStyles darkStyles : Style) : Style := lightStyles.
Definition dark (lightStyles darkStyles : Style) : Style := spread lightStyles darkStyles.

Definition song : Props :=
  {| getStylesFromColorScheme := light;
     source := Some "https://example.org/a/song.final.mp3";
     isUploadInProgress := false;
     fileName := Some "song.final.mp3";
     isUploadFailed := false |}.

Definition songDark : Props :=
  {| getStylesFromColorScheme := dark;
     source := Some "https://example.org/a/song.final.mp3";
     isUploadInProgress := false;
     fileName := Some "song.final.mp3";
     isUploadFailed := false |}.

Definition songMirror : Props :=
  {| getStylesFromColorScheme := light;
     source := Some "https://mirror.example.org/song.final.mp3";
     isUploadInProgress := false;
     fileName := Some "song.final.mp3";
     isUploadFailed := false |}.

Definition stuckDark : Props :=
  {| getStylesFromColorScheme := dark;
     source := None;
     isUploadInProgress := false;
     fileName := Some ".mp3";
     isUploadFailed := true |}.

Definition emptySource : Props :=
  {| getStylesFromColorScheme := light;
     source := Some "";
     isUploadInProgress := false;
     fileName := None;
     isUploadFailed := false |}.

Definition README : Props :=
  {| getStylesFromColorScheme := light;
     source := Some "file:///README";
     isUploadInProgress := false;
     fileName := Some "README";
     isUploadFailed := false |}.

Definition stuck : Props :=
  {| getStylesFromColorScheme := light;
     source := Some "https://example.org/a/song.final.mp3";
     isUploadInProgress := true;
     fileName := Some "song.final.mp3";
     isUploadFailed := true |}.

Definition unsupported : Linking :=
  {| canOpenURL_settles := fun _ => Resolved false;
     openURL_settles := fun _ => Resolved tt |}.

Definition offline : Linking :=
  {| canOpenURL_settles := fun _ => Rejected "offline";
     openURL_settles := fun _ => Resolved tt |}.

Definition refusing : Linking :=
  {| canOpenURL_settles := fun _ => Resolved true;
     openURL_settles := fun _ => Rejected "no activity" |}.

Definition working : Linking :=
  {| canOpenURL_settles := fun _ => Resolved true;
     openURL_settles := fun _ => Resolved tt |}.

(** A world in which the [ref] callback has already stored a handle. *)
Definition withPlayer : World := {| paused := true; player := Some 7; log := [] |}.

End Sample.

(** ** The button block's editor *)

Module Button.

(** The values block attributes and control callbacks carry here.  The
    numbers are the ones the controls hand out: the four widths and the
    whole steps of the radius slider. *)
Inductive value : Type :=
| Undefined
| Str (s : string)
| Num (n : Z)
| Bool (b : bool).

#[export] Instance value_eq_dec : EqDecision value.
Proof. solve_decision. Defined.

(** [Boolean( v )] *)
Definition truthy (v : value) : bool :=
  match v with
  | Undefined => false
  | Str s => negb (String.eqb s "")
  | Num n => negb (Z.eqb n 0)
  | Bool b => b
  end.

(** [a === b] *)
Definition strictEq (a b : value) : bool := bool_decide (a = b).

(** [String( v )], as string concatenation and template literals apply
    it. *)
Definition toString (v : value) : string :=
  match v with
  | Undefined => "undefined"
  | Str s => s
  | Num n => pretty n
  | Bool true => "true"
  | Bool false => "false"
  end.

(** [a || b] *)
Definition or_ (a b : value) : value := if truthy a then a else b.

(** The block's attributes, and a read [attributes.key]. *)
Definition attribute (attributes : gmap string value) (key : string) : value :=
  default Undefined (attributes !! key).

(** What the handlers act on: the attributes the editor holds for the
    block, and how often the link dropdown was told to toggle and to
    close. *)
Record Editor : Type := {
  attributes : gmap string value;
  toggled : nat;
  closed : nat
}.

Definition Action : Type := Editor → Editor.

(** [setAttributes( update )]: the editor lays the update over the
    attributes it holds. *)
Definition setAttributes (update : gmap string value) : Action :=
  fun ed =>
    {| attributes := update ∪ attributes ed;
       toggled := toggled ed;
       closed := closed ed |}.

(** [onToggle()] and [onClose()] of the dropdown. *)
Definition onToggle : Action :=
  fun ed =>
    {| attributes := attributes ed;
       toggled := S (toggled ed);
       closed := closed ed |}.

Definition onClose : Action :=
  fun ed =>
    {| attributes := attributes ed;
       toggled := toggled ed;
       closed := S (closed ed) |}.

Definition andThen (first second : Action) : Action :=
  fun ed => second (first ed).

Definition skip : Action := fun ed => ed.

(** [useCallback( callback, [ dep ] )]: the callback of the render that
    last saw [dep] change, kept with the [dep] it was made for. *)
Definition useCallback {T : Type} (memo : option (nat * T)) (callback : T) (dep : nat)
  : T * option (nat * T) :=
  match memo with
  | Some (d, cached) =>
      if Nat.eqb d dep then (cached, memo) else (callback, Some (dep, callback))
  | None => (callback, Some (dep, callback))
  end.

(** [classnames( ... )]: string and number arguments that are truthy,
    and the keys of object arguments whose value is truthy, joined by
    blanks. *)
Inductive classArg : Type :=
| ClassValue (v : value)
| ClassMap (entries : list (string * value)).

Definition classTokens (arg : classArg) : list string :=
  match arg with
  | ClassValue (Str s) => if truthy (Str s) then [s] else []
  | ClassValue (Num n) => if truthy (Num n) then [pretty n] else []
  | ClassValue _ => []
  | ClassMap entries =>
      (List.filter (fun entry => truthy entry.2) entries).*1
  end.

Definition classnames (args : list classArg) : string :=
  JS.join " " (concat (classTokens <$> args)).

(** The regular expression [/<\/?a[^>]*>/] tried at the head of [s]:
    the number of units it takes when it matches.  After ['<'], an
    optional ['/'] and ['a'], the class [[^>]*] runs up to the first
    ['>'], which ends the match; without a ['>'] there is none. *)
Fixpoint untilGt (s : string) : option nat :=
  match s with
  | EmptyString => None
  | String c s' => if Ascii.eqb c ">" then Some 1 else S <$> untilGt s'
  end.

Definition anchorTagAt (s : string) : option nat :=
  match s with
  | String "<" (String "/" (String "a" rest)) => (fun n => 3 + n) <$> untilGt rest
  | String "<" (String "a" rest) => (fun n => 2 + n) <$> untilGt rest
  | _ => None
  end.

(** [s.replace( /<\/?a[^>]*>/g, '' )]: from left to right, a match is
    dropped and the scan goes on behind it; a unit where nothing matches
    is kept.  [pending] counts the units of a running match still to be
    dropped. *)
Fixpoint replaceFrom (pending : nat) (s : string) : string :=
  match s with
  | EmptyString => EmptyString
  | String c s' =>
      match pending with
      | S k => replaceFrom k s'
      | 0 =>
          match anchorTagAt s with
          | Some n => replaceFrom (n - 1) s'
          | None => String c (replaceFrom 0 s')
          end
      end
  end.

Definition replaceAnchorTags (s : string) : string := replaceFrom 0 s.

Definition NEW_TAB_REL : string := "noreferrer noopener".
Definition MIN_BORDER_RADIUS_VALUE : Z := 0.
Definition MAX_BORDER_RADIUS_VALUE : Z := 50.
Definition INITIAL_BORDER_RADIUS_POSITION : Z := 5.

(** [RangeControl], as [BorderPanel] configures it. *)
Record RangeControl : Type := {
  rangeValue : value;
  rangeLabel : string;
  rangeMin : Z;
  rangeMax : Z;
  initialPosition : Z;
  allowReset : bool;
  rangeOnChange : value → Action
}.

(** One [Button] of the width group. *)
Record WidthButton : Type := {
  key : Z;
  isSmall : bool;
  isPrimary : bool;
  onClick : Action;
  buttonChildren : string
}.

(** The shortcuts [@wordpress/keycodes] is asked for, to display or to
    bind. *)
Inductive shortcut : Type :=
| primary (character : string)
| primaryShift (character : string).

#[export] Instance shortcut_eq_dec : EqDecision shortcut.
Proof. solve_decision. Defined.

(** Of the props the toolbar hands to its item, the ones the link
    button also sets itself. *)
Record ToolbarItemProps : Type := {
  itemName : option string;
  itemIsActive : option bool;
  itemOnClick : option (string → Action)
}.

(** The props of the toolbar's link button. *)
Record ToggleProps : Type := {
  toggleName : string;
  toggleIcon : string;
  toggleTitle : string;
  toggleShortcut : shortcut;
  isActive : option bool;
  toggleOnClick : option (string → Action)
}.

(** What [URLPicker] renders: the toolbar button, the handlers bound to
    the two shortcuts, and the dropdown with its [LinkControl]. *)
Record URLPickerRendered : Type := {
  toggle : ToggleProps;
  shortcuts : list (shortcut * (string → Action));
  autoClose : bool;
  openOnMount : bool;
  linkValue : value * value;
  linkOnChange : value → value → Action
}.

(** [getColorAndStyleProps( attributes, colors, true )] *)
Record ColorProps : Type := {
  colorClassName : value;
  colorStyle : gmap string value
}.

(** What [ButtonEdit] is given: the block's attributes, the identity of
    the [setAttributes] it is passed, [className] and [isSelected], and
    what the hooks, helpers and containers defined elsewhere hand to
    this block. *)
Record Props : Type := {
  blockAttributes : gmap string value;
  setAttributesId : nat;
  className : value;
  isSelected : bool;
  blockPropsClassName : value;
  getColorAndStyleProps : gmap string value → ColorProps;
  toolbarItemProps : ToolbarItemProps
}.

(** What [ButtonEdit] renders. *)
Record Rendered : Type := {
  wrapperClassName : string;
  richTextPlaceholder : value;
  richTextValue : value;
  richTextOnChange : string → Action;
  richTextClassName : string;
  richTextStyle : gmap string value;
  richTextOnSplit : value → string * gmap string value;
  urlPicker : URLPickerRendered;
  borderPanel : RangeControl;
  widthPanel : list WidthButton;
  linkRelValue : value;
  linkRelOnChange : value → Action
}.

Section Components.
Context `{Host}.

Definition BorderPanel (borderRadius : value) (setAttributesId : nat)
    (memo : option (nat * (value → Action)))
  : RangeControl * option (nat * (value → Action)) :=
  let borderRadius :=
    if strictEq borderRadius Undefined then Str "" else borderRadius in
  let initialBorderRadius := borderRadius in
  let '(setBorderRadius, memo) :=
    useCallback memo
      (fun newBorderRadius =>
         if strictEq newBorderRadius Undefined then
           setAttributes {[ "borderRadius" := initialBorderRadius ]}
         else setAttributes {[ "borderRadius" := newBorderRadius ]})
      setAttributesId in
  ({| rangeValue := borderRadius;
      rangeLabel := __ "Border radius";
      rangeMin := MIN_BORDER_RADIUS_VALUE;
      rangeMax := MAX_BORDER_RADIUS_VALUE;
      initialPosition := INITIAL_BORDER_RADIUS_POSITION;
      allowReset := true;
      rangeOnChange := setBorderRadius |}, memo).

Definition handleChange (selectedWidth newWidth : value) : Action :=
  let width := if strictEq selectedWidth newWidth then Undefined else newWidth in
  setAttributes {[ "width" := width ]}.

Definition WidthPanel (selectedWidth : value) : list WidthButton :=
  (fun widthValue =>
     {| key := widthValue;
        isSmall := true;
        isPrimary := strictEq (Num widthValue) selectedWidth;
        onClick := handleChange selectedWidth (Num widthValue);
        buttonChildren := pretty widthValue +:+ "%" |})
  <$> [25; 50; 75; 100]%Z.

Definition onRemove (type : string) : Action :=
  andThen
    (setAttributes
       {[ "url" := Undefined; "linkTarget" := Undefined; "rel" := Undefined ]})
    (if String.eqb type "keydown" then onClose else skip).

Definition URLPicker (isSelected : bool) (url opensInNewTab : value)
    (onToggleOpenInNewTab : value → Action) (toolbarItemProps : ToolbarItemProps)
  : URLPickerRendered :=
  let urlIsSet := truthy url in
  let urlIsSetandSelected := urlIsSet && isSelected in
  {| toggle :=
       if negb urlIsSet then
         {| toggleName := default "link" (itemName toolbarItemProps);
            toggleIcon := "link";
            toggleTitle := __ "Link";
            toggleShortcut := primary "k";
            isActive := itemIsActive toolbarItemProps;
            toggleOnClick := itemOnClick toolbarItemProps |}
       else
         {| toggleName := default "link" (itemName toolbarItemProps);
            toggleIcon := "linkOff";
            toggleTitle := __ "Unlink";
            toggleShortcut := primaryShift "k";
            isActive := Some true;
            toggleOnClick := Some onRemove |};
     shortcuts :=
       [ (primary "k", fun _ => onToggle); (primaryShift "k", onRemove) ];
     autoClose := false;
     openOnMount := urlIsSetandSelected;
     linkValue := (url, opensInNewTab);
     linkOnChange :=
       fun newURL newOpensInNewTab =>
         let newURL := if strictEq newURL Undefined then Str "" else newURL in
         andThen
           (setAttributes {[ "url" := newURL ]})
           (if negb (strictEq opensInNewTab newOpensInNewTab)
            then onToggleOpenInNewTab newOpensInNewTab
            else skip) |}.

Definition onSetLinkRel (v : value) : Action := setAttributes {[ "rel" := v ]}.

Definition onToggleOpenInNewTab (rel v : value) : Action :=
  let newLinkTarget := if truthy v then Str "_blank" else Undefined in
  let updatedRel :=
    if truthy newLinkTarget && negb (truthy rel) then Str NEW_TAB_REL
    else if negb (truthy newLinkTarget) && strictEq rel (Str NEW_TAB_REL)
         then Undefined
         else rel in
  setAttributes {[ "linkTarget" := newLinkTarget; "rel" := updatedRel ]}.

Definition setButtonText (newText : string) : Action :=
  setAttributes {[ "text" := Str (replaceAnchorTags newText) ]}.

Definition ButtonEdit (props : Props) (memo : option (nat * (value → Action)))
  : Rendered * option (nat * (value → Action)) :=
  let attributes := blockAttributes props in
  let borderRadius := attribute attributes "borderRadius" in
  let linkTarget := attribute attributes "linkTarget" in
  let placeholder := attribute attributes "placeholder" in
  let rel := attribute attributes "rel" in
  let text := attribute attributes "text" in
  let url := attribute attributes "url" in
  let width := attribute attributes "width" in
  let colorProps := getColorAndStyleProps props attributes in
  let '(border, memo) := BorderPanel borderRadius (setAttributesId props) memo in
  ({| wrapperClassName :=
        classnames
          [ ClassValue (blockPropsClassName props);
            ClassMap
              [ ("has-custom-width wp-block-button__width-" +:+ toString width,
                 width) ] ];
      richTextPlaceholder := or_ placeholder (Str (__ "Add text…"));
      richTextValue := text;
      richTextOnChange := setButtonText;
      richTextClassName :=
        classnames
          [ ClassValue (className props);
            ClassValue (Str "wp-block-button__link");
            ClassValue (colorClassName colorProps);
            ClassMap [ ("no-border-radius", Bool (strictEq borderRadius (Num 0))) ] ];
      richTextStyle :=
        colorStyle colorProps
        ∪ {[ "borderRadius" :=
               if truthy borderRadius
               then Str (toString borderRadius +:+ "px")
               else Undefined ]};
      richTextOnSplit :=
        fun v => ("core/button", {[ "text" := v ]} ∪ attributes);
      urlPicker :=
        URLPicker (isSelected props) url
          (Bool (strictEq linkTarget (Str "_blank")))
          (onToggleOpenInNewTab rel)
          (toolbarItemProps props);
      borderPanel := border;
      widthPanel := WidthPanel width;
      linkRelValue := or_ rel (Str "");
      linkRelOnChange := onSetLinkRel |}, memo).

(** What the editor can send to a rendered button block. *)
Inductive event : Type :=
| RichTextChange (newText : string)
| LinkControlChange (newURL newOpensInNewTab : value)
| ToolbarLinkClick (type : string)
| Shortcut (keys : shortcut) (type : string)
| LinkRelChange (v : value)
| WidthButtonClick (index : nat)
| RangeControlChange (v : value).

Definition dispatch (v : Rendered) (e : event) : Action :=
  match e with
  | RichTextChange newText => richTextOnChange v newText
  | LinkControlChange newURL newOpensInNewTab =>
      linkOnChange (urlPicker v) newURL newOpensInNewTab
  | ToolbarLinkClick type =>
      match toggleOnClick (toggle (urlPicker v)) with
      | Some handler => handler type
      | None => skip
      end
  | Shortcut keys type =>
      match List.find (fun binding => bool_decide (binding.1 = keys))
              (shortcuts (urlPicker v)) with
      | Some binding => binding.2 type
      | None => skip
      end
  | LinkRelChange rel => linkRelOnChange v rel
  | WidthButtonClick index =>
      match widthPanel v !! index with
      | Some button => onClick button
      | None => skip
      end
  | RangeControlChange radius => rangeOnChange (borderPanel v) radius
  end.

(** A mounted block: what the editor holds, and the callback
    [BorderPanel] has memoised. *)
Record Mounted : Type := {
  editor : Editor;
  borderMemo : option (nat * (value → Action))
}.

(** The props of the next render: the attributes are the editor's, the
    rest is as the block was given it. *)
Definition propsFor (props : Props) (ed : Editor) : Props :=
  {| blockAttributes := attributes ed;
     setAttributesId := setAttributesId props;
     className := className props;
     isSelected := isSelected props;
     blockPropsClassName := blockPropsClassName props;
     getColorAndStyleProps := getColorAndStyleProps props;
     toolbarItemProps := toolbarItemProps props |}.

(** One event against the tree of a render with the current
    attributes. *)
Definition step (props : Props) (m : Mounted) (e : event) : Mounted :=
  let '(v, memo) := ButtonEdit (propsFor props (editor m)) (borderMemo m) in
  {| editor := dispatch v e (editor m); borderMemo := memo |}.

Definition run (props : Props) (m : Mounted) (events : list event) : Mounted :=
  fold_left (step props) events m.

(** A block as the editor first renders it. *)
Definition mount (attributes : gmap string value) : Mounted :=
  {| editor := {| attributes := attributes; toggled := 0; closed := 0 |};
     borderMemo := None |}.

End Components.

(** Predicates on a mounted block, for stating what its handlers keep. *)

(** The [rel] attribute is not empty whenever the link opens in a new
    tab. *)
Definition relGuardsNewTab (attributes : gmap string value) : Prop :=
  strictEq (attribute attributes "linkTarget") (Str "_blank") = true →
  truthy (attribute attributes "rel") = true.

(** The click handler the toolbar item may bring along leaves the
    block's attributes alone. *)
Definition itemLeavesAttributes (props : Props) : Prop :=
  ∀ handler, itemOnClick (toolbarItemProps props) = Some handler →
    ∀ type ed, attributes (handler type ed) = attributes ed.

(** The [width] attribute is unset or one of the four widths on offer. *)
Definition widthOnOffer (attributes : gmap string value) : Prop :=
  attribute attributes "width" = Undefined
  ∨ ∃ w, w ∈ [25; 50; 75; 100]%Z ∧ attribute attributes "width" = Num w.

(** The memoised radius callback is the one a render with the radius
    [initial] made for the [setAttributes] of identity [dep]. *)
Definition memoOf (dep : nat) (initial : value) (memo : option (nat * (value → Action)))
  : Prop :=
  ∃ callback,
    memo = Some (dep, callback)
    ∧ ∀ v, callback v
           = setAttributes
               {[ "borderRadius" := if strictEq v Undefined then initial else v ]}.

End Button.

(** ** Concrete button blocks *)

Module ButtonSample.
Import Button.

Definition colorless (attributes : gmap string value) : ColorProps :=
  {| colorClassName := Undefined; colorStyle := ∅ |}.

Definition block (attributes : gmap string value) : Props :=
  {| blockAttributes := attributes;
     setAttributesId := 1;
     className := Undefined;
     isSelected := true;
     blockPropsClassName := Str "wp-block-button";
     getColorAndStyleProps := colorless;
     toolbarItemProps :=
       {| itemName := None; itemIsActive := None; itemOnClick := Some (fun _ => skip) |} |}.

Definition plain : gmap string value := {[ "text" := Str "Buy" ]}.

Definition linked : gmap string value :=
  {[ "text" := Str "Buy"; "url" := Str "https://example.org/shop";
     "rel" := Str "nofollow"; "width" := Num 50 ]}.

Definition inNewTab : gmap string value :=
  {[ "text" := Str "Buy"; "url" := Str "https://example.org/shop";
     "linkTarget" := Str "_blank"; "rel" := Str "noreferrer noopener" ]}.

Definition rounded : gmap string value :=
  {[ "text" := Str "Buy"; "borderRadius" := Num 12 ]}.

End ButtonSample.

(** ** Bookkeeping over runs of the Player *)

Module Runs.
Import JS AudioPlayer.

Definition isPress (e : event) : bool :=
  match e with PressListen => true | _ => false end.

Definition isPresent (e : effect) : bool :=
  match e with PresentFullscreenPlayer _ => true | _ => false end.

(** What a press through the rendered [Listen] control adds to the log,
    by the props, the platform and the reference held. *)
Definition pressEffects `{Host} (props : Props) (net : Linking)
    (held : option playerRef) : list effect :=
  if isDisabled props then []
  else
    match source props with
    | Some url =>
        if truthy (Some url) then
          match isIOS, held with
          | true, Some ref => [PresentFullscreenPlayer ref]
          | _, _ => Spec.pressOutcome net url
          end
        else []
    | None => []
    end.

End Runs.

(** ** Facts about the JavaScript fragment *)

Module JSFacts.
Import JS.

Section Split.
Variable c : ascii.

Lemma split_not_nil (s : string) : split c s ≠ [].
Proof.
  destruct s as [|a s]; simpl; [discriminate|].
  destruct (Ascii.eqb a c); [discriminate|].
  destruct (split c s); discriminate.
Qed.

Lemma split_sep (s : string) : split c (String c s) = "" :: split c s.
Proof. simpl. by rewrite Ascii.eqb_refl. Qed.

Lemma split_other (a : ascii) (s p : string) (ps : list string) :
  Ascii.eqb a c = false → split c s = p :: ps →
  split c (String a s) = String a p :: ps.
Proof. intros Ha Hs. simpl. by rewrite Ha, Hs. Qed.

Lemma join_grow (a : ascii) (p : string) (ps : list string) :
  join (String c "") (String a p :: ps) = String a (join (String c "") (p :: ps)).
Proof. destruct ps; reflexivity. Qed.

Lemma join_empty_head (ps : list string) :
  ps ≠ [] → join (String c "") ("" :: ps) = String c (join (String c "") ps).
Proof. destruct ps; [done | reflexivity]. Qed.

Lemma substring_all (s : string) : String.substring 0 (String.length s) s = s.
Proof. induction s; simpl; [done | by f_equal]. Qed.

Lemma lastIndexOf_occurs (s : string) :
  lastIndexOf c s = None ↔ occurs c s = false.
Proof.
  induction s as [|a s IH]; simpl; [done|].
  destruct (lastIndexOf c s) as [i|].
  - split; [done|]. intros [_ Hs]%orb_false_iff. by apply IH in Hs.
  - destruct IH as [IH _]. rewrite (IH eq_refl), orb_false_r.
    destruct (Ascii.eqb a c); done.
Qed.

(** What [split] returns, read off [lastIndexOf]. *)
Lemma split_lastIndexOf (s : string) :
  match lastIndexOf c s with
  | None => split c s = [s]
  | Some i =>
      ∃ p q ps, split c s = p :: q :: ps
        ∧ last (split c s) = Some (String.substring (S i) (String.length s - S i) s)
        ∧ join (String c "") (removelast (split c s)) = String.substring 0 i s
  end.
Proof.
  induction s as [|a s IH]; [reflexivity|].
  cbn [lastIndexOf]. destruct (lastIndexOf c s) as [i|].
  - destruct IH as (p & q & ps & Hs & Hlast & Hjoin).
    destruct (Ascii.eqb a c) eqn:Ha.
    + apply Ascii.eqb_eq in Ha as ->. rewrite split_sep, Hs in *.
      exists "", p, (q :: ps). split; [done|]. split.
      * rewrite last_cons_cons. exact Hlast.
      * change (removelast ("" :: p :: q :: ps)) with ("" :: removelast (p :: q :: ps)).
        rewrite join_empty_head by (destruct ps; done). by rewrite Hjoin.
    + rewrite (split_other a s p (q :: ps) Ha Hs). rewrite Hs in *.
      exists (String a p), q, ps. split; [done|]. split.
      * rewrite last_cons_cons in *. exact Hlast.
      * change (removelast (String a p :: q :: ps)) with (String a p :: removelast (q :: ps)).
        rewrite join_grow.
        change (p :: removelast (q :: ps)) with (removelast (p :: q :: ps)).
        by rewrite Hjoin.
  - destruct (Ascii.eqb a c) eqn:Ha.
    + apply Ascii.eqb_eq in Ha as ->. rewrite split_sep, IH.
      exists "", s, []. split; [done|]. split; [|done].
      cbn. rewrite Nat.sub_0_r. by rewrite substring_all.
    + destruct s; simpl in *; rewrite Ha; [done|].
      revert IH. simpl. intros ->. done.
Qed.

(** [lastIndexOf] does find the last occurrence: the string falls apart
    into what is before it, the separator, and a rest free of it. *)
Lemma lastIndexOf_decompose (s : string) (i : nat) :
  lastIndexOf c s = Some i →
  s = String.substring 0 i s
        +:+ String c (String.substring (S i) (String.length s - S i) s)
  ∧ occurs c (String.substring (S i) (String.length s - S i) s) = false.
Proof.
  revert i. induction s as [|a s IH]; intros i; [discriminate|].
  cbn [lastIndexOf]. destruct (lastIndexOf c s) as [j|] eqn:Hj.
  - intros [= <-]. destruct (IH j eq_refl) as [Hs Hocc].
    split; [|exact Hocc].
    change (String a s = String a (String.substring 0 j s
      +:+ String c (String.substring (S j) (String.length s - S j) s))).
    by rewrite <- Hs.
  - destruct (Ascii.eqb a c) eqn:Ha; [|discriminate].
    apply Ascii.eqb_eq in Ha as ->. intros [= <-].
    cbn. rewrite Nat.sub_0_r, substring_all.
    split; [done|]. by apply lastIndexOf_occurs.
Qed.

End Split.

Example split_three_parts :
  split "." "song.final.mp3" = ["song"; "final"; "mp3"].
Proof. reflexivity. Qed.

Example split_of_empty : split "." "" = [""].
Proof. reflexivity. Qed.

Example split_trailing_dot : split "." "track." = ["track"; ""].
Proof. reflexivity. Qed.

Example pop_takes_the_last :
  pop ["song"; "final"; "mp3"] = (Some "mp3", ["song"; "final"]).
Proof. reflexivity. Qed.

Example pop_of_empty : pop [] = (None, []).
Proof. reflexivity. Qed.

Example join_two : join "." ["song"; "final"] = "song.final".
Proof. reflexivity. Qed.

Example lastIndexOf_song : lastIndexOf "." "song.final.mp3" = Some 10.
Proof. reflexivity. Qed.

End JSFacts.

Module PlayerFacts.
Import JS AudioPlayer.

(** *** One render *)

Section Rendering.
Context `{Host}.

(** [titleAndExtension] never throws, and what it yields is what the
    last ['.'] cuts the name into. *)
Lemma titleAndExtension_nonempty (props : Props) (f : string) :
  fileName props = Some f → f ≠ "" →
  titleAndExtension props
  = Resolved (Spec.beforeLastDot f, toUpperCase (Spec.afterLastDot f)).
Proof.
  intros Hf Hne. unfold titleAndExtension. rewrite Hf.
  assert (truthy (Some f) = true) as ->.
  { unfold truthy. apply negb_true_iff, String.eqb_neq, Hne. }
  unfold pop, Spec.beforeLastDot, Spec.afterLastDot.
  pose proof (JSFacts.split_lastIndexOf "." f) as Hsplit.
  destruct (lastIndexOf "." f) as [i|].
  - destruct Hsplit as (p & q & ps & _ & -> & ->). reflexivity.
  - rewrite Hsplit. reflexivity.
Qed.

Lemma titleAndExtension_falsy (props : Props) :
  truthy (fileName props) = false →
  titleAndExtension props = Resolved ("", "").
Proof.
  unfold titleAndExtension. destruct (fileName props) as [f|]; [|done].
  by intros ->.
Qed.

Lemma titleAndExtension_total (props : Props) :
  ∃ title extension, titleAndExtension props = Resolved (title, extension).
Proof.
  destruct (truthy (fileName props)) eqn:Ht.
  - destruct (fileName props) as [f|] eqn:Hf; [|discriminate].
    eexists _, _. apply (titleAndExtension_nonempty props f Hf).
    intros ->. discriminate.
  - eexists _, _. by apply titleAndExtension_falsy.
Qed.

(** A render always completes, and shows [titleAndExtension]'s title and
    the subtitle made from its extension. *)
Lemma Player_total (props : Props) (paused : bool) :
  ∃ v title extension,
    Player props paused = Resolved v
    ∧ titleAndExtension props = Resolved (title, extension)
    ∧ titleText v = title
    ∧ subtitleText v = getSubtitleValue props extension.
Proof.
  destruct (titleAndExtension_total props) as (t & e & Hte).
  unfold Player. rewrite Hte. by eexists _, t, e.
Qed.

(** The handlers a render puts into its tree. *)
Lemma Player_handlers (props : Props) (paused : bool) :
  ∃ v, Player props paused = Resolved v
     ∧ pausedProp (video v) = paused
     ∧ refCallback (video v) = set_this_player
     ∧ onFullscreenPlayerWillPresent (video v) = setPaused false
     ∧ onFullscreenPlayerDidDismiss (video v) = setPaused true
     ∧ onPress <$> listen v
       = (if isDisabled props then None else Some (onPressListen props)).
Proof.
  destruct (titleAndExtension_total props) as (t & e & Hte).
  unfold Player. rewrite Hte. eexists. split; [reflexivity|]. cbn.
  repeat split. by destruct (isDisabled props).
Qed.

(** Renders the tree as [v] and rewrites its title and extension with
    the equation [Hte] already known for [titleAndExtension]. *)
Ltac render_with Hte props paused v :=
  let t := fresh "t" in
  let e := fresh "e" in
  let Hv := fresh "Hv" in
  let Hte' := fresh "Hte" in
  let Ht := fresh "Ht" in
  let Hs := fresh "Hs" in
  destruct (Player_total props paused) as (v & t & e & Hv & Hte' & Ht & Hs);
  rewrite Hte in Hte'; injection Hte' as <- <-.

(** C2.  For every non-empty [fileName] the displayed title is everything
    before the last ['.'] and the displayed extension is the upper-cased
    text after it: [split], [pop] and [join] land on the cut that
    [lastIndexOf] names, and when the name has a ['.'] that cut is the
    name's own decomposition into title, dot and a dot-free rest.  For an
    absent or empty [fileName] title and extension are both empty. *)
Theorem title_and_extension_cut_at_last_dot (props : Props) (paused : bool) :
  (∀ f, fileName props = Some f → f ≠ "" →
     titleAndExtension props
     = Resolved (Spec.beforeLastDot f, toUpperCase (Spec.afterLastDot f))
     ∧ (∃ v, Player props paused = Resolved v
          ∧ titleText v = Spec.beforeLastDot f
          ∧ subtitleText v
            = getSubtitleValue props (toUpperCase (Spec.afterLastDot f)))
     ∧ (occurs "." f = true →
          f = Spec.beforeLastDot f +:+ "." +:+ Spec.afterLastDot f
          ∧ occurs "." (Spec.afterLastDot f) = false))
  ∧ (fileName props = None ∨ fileName props = Some "" →
     titleAndExtension props = Resolved ("", "")
     ∧ ∃ v, Player props paused = Resolved v
          ∧ titleText v = ""
          ∧ subtitleText v = getSubtitleValue props "").
Proof.
  split.
  - intros f Hf Hne.
    pose proof (titleAndExtension_nonempty props f Hf Hne) as Hte.
    split; [exact Hte|]. split.
    + render_with Hte props paused v. by exists v.
    + intros Hocc. unfold Spec.beforeLastDot, Spec.afterLastDot.
      destruct (lastIndexOf "." f) as [i|] eqn:Hi.
      * exact (JSFacts.lastIndexOf_decompose "." f i Hi).
      * apply JSFacts.lastIndexOf_occurs in Hi. congruence.
  - intros Hf.
    assert (truthy (fileName props) = false) as Hfalsy
      by (destruct Hf as [-> | ->]; reflexivity).
    pose proof (titleAndExtension_falsy props Hfalsy) as Hte.
    split; [exact Hte|].
    render_with Hte props paused v. by exists v.
Qed.

(** C7.  Two renders whose props agree on [fileName], the two upload
    flags and the answers of [getStylesFromColorScheme], on one platform
    and style sheet, both complete and yield the same style objects and
    the same subtitle, whatever [paused] holds at either render. *)
Theorem styles_and_subtitle_follow_the_inputs
    (p1 p2 : Props) (paused1 paused2 : bool) :
  fileName p1 = fileName p2 →
  isUploadInProgress p1 = isUploadInProgress p2 →
  isUploadFailed p1 = isUploadFailed p2 →
  (∀ a b, getStylesFromColorScheme p1 a b = getStylesFromColorScheme p2 a b) →
  ∃ v1 v2,
    Player p1 paused1 = Resolved v1
    ∧ Player p2 paused2 = Resolved v2
    ∧ styleObjects v1 = styleObjects v2
    ∧ subtitleText v1 = subtitleText v2.
Proof.
  intros Hname Hprog Hfail Hgs.
  destruct (titleAndExtension_total p1) as (t & e & Hte1).
  assert (titleAndExtension p2 = Resolved (t, e)) as Hte2.
  { rewrite <- Hte1. unfold titleAndExtension. by rewrite Hname. }
  unfold Player. rewrite Hte1, Hte2. eexists _, _.
  split; [reflexivity|]. split; [reflexivity|].
  unfold styleObjects, getSubtitleValue, isDisabled. cbn.
  rewrite !Hgs, Hprog, Hfail. split; [|done].
  by destruct (isUploadFailed p2), (isUploadInProgress p2).
Qed.

(** C8.  A [fileName] without any ['.'] is shown with an empty title and
    with the whole name, upper-cased, in the place of the extension; with
    no upload under way or failed the subtitle is that upper-cased name
    followed by the translated [' audio file'].  The host's
    [toUpperCase] is only asked to map the empty string to itself. *)
Theorem no_dot_whole_name_is_extension (props : Props) (paused : bool) (f : string) :
  toUpperCase "" = "" →
  fileName props = Some f →
  occurs "." f = false →
  titleAndExtension props = Resolved ("", toUpperCase f)
  ∧ ∃ v, Player props paused = Resolved v
       ∧ titleText v = ""
       ∧ (isUploadInProgress props = false → isUploadFailed props = false →
          subtitleText v = toUpperCase f +:+ __ " audio file").
Proof.
  intros Hup Hf Hocc.
  assert (titleAndExtension props = Resolved ("", toUpperCase f)) as Hte.
  { destruct (decide (f = "")) as [-> | Hne].
    - rewrite Hup. apply titleAndExtension_falsy. by rewrite Hf.
    - rewrite (titleAndExtension_nonempty props f Hf Hne).
      unfold Spec.beforeLastDot, Spec.afterLastDot.
      apply JSFacts.lastIndexOf_occurs in Hocc. by rewrite Hocc. }
  split; [exact Hte|].
  render_with Hte props paused v.
  exists v. split; [done|]. split; [done|].
  intros Hp Hfail. rewrite Hs. unfold getSubtitleValue. by rewrite Hp, Hfail.
Qed.

(** C10.  The subtitle by the two upload flags: [isUploadInProgress]
    alone decides for ['Uploading…'], also when [isUploadFailed] is set
    with it; the failure message needs the first flag off and the second
    on; the extension followed by [' audio file'] is shown only with both
    off. *)
Theorem uploading_message_takes_precedence (props : Props) (paused : bool) :
  ∃ v title extension,
    Player props paused = Resolved v
    ∧ titleAndExtension props = Resolved (title, extension)
    ∧ subtitleText v
      = match isUploadInProgress props, isUploadFailed props with
        | true, _ => __ "Uploading…"
        | false, true => __ "Failed to insert audio file. Please tap for options."
        | false, false => extension +:+ __ " audio file"
        end.
Proof.
  destruct (Player_total props paused) as (v & t & e & Hv & Hte & Ht & Hs).
  exists v, t, e. split; [done|]. split; [done|].
  rewrite Hs. unfold getSubtitleValue.
  by destruct (isUploadInProgress props), (isUploadFailed props).
Qed.

(** C9.  [isDisabled] is [isUploadFailed || isUploadInProgress], and the
    [Listen] control is in the rendered tree exactly when it is false.
    With either flag set there is no control, so a press finds no
    handler: it completes with the world as it was, the log included. *)
Theorem listen_only_while_enabled (props : Props) (paused : bool) :
  isDisabled props = isUploadFailed props || isUploadInProgress props
  ∧ ∃ v, Player props paused = Resolved v
      ∧ (is_Some (listen v) ↔ isDisabled props = false)
      ∧ (isUploadFailed props = true ∨ isUploadInProgress props = true →
         listen v = None
         ∧ ∀ net w, dispatch v PressListen net w = (Resolved tt, w)
                    ∧ step props net w PressListen = w).
Proof.
  split; [reflexivity|].
  destruct (Player_handlers props paused) as (v & Hv & _ & _ & _ & _ & Hl).
  exists v. split; [exact Hv|]. split.
  - destruct (isDisabled props), (listen v) as [control|]; try discriminate;
      (split; [intros [? ?] | intros ?]); try done; by eexists.
  - intros Hflag.
    assert (isDisabled props = true) as Hd.
    { unfold isDisabled. destruct Hflag as [-> | ->]; [done | apply orb_true_r]. }
    rewrite Hd in Hl.
    assert (∀ v', onPress <$> listen v' = None →
                  ∀ net w, dispatch v' PressListen net w = (Resolved tt, w)) as Hoff.
    { intros v' Hnone net w. unfold dispatch. by destruct (listen v'). }
    split; [by destruct (listen v)|]. intros net w. split; [by apply Hoff|].
    unfold step.
    destruct (Player_handlers props (AudioPlayer.paused w))
      as (v' & -> & _ & _ & _ & _ & Hl').
    rewrite Hd in Hl'. by rewrite Hoff.
Qed.

End Rendering.

(** *** A press on [Listen] *)

Section Pressing.
Context `{Host}.

(** The chain always runs to its end: the log grows by the outcome the
    answers select, nothing else in the world moves, and the promise the
    chain leaves resolves. *)
Lemma listenChain_run (url : string) (net : Linking) (w : World) :
  listenChain url net w
  = (Resolved tt,
     {| paused := AudioPlayer.paused w; player := player w;
        log := log w ++ Spec.pressOutcome net url |}).
Proof.
  unfold listenChain, catch_, then_, bind, Linking_canOpenURL, Linking_openURL,
    Alert_alert, emit, Spec.pressOutcome.
  destruct (canOpenURL_settles net url) as [[|]|r]; cbn.
  - destruct (openURL_settles net url) as [[]|r]; cbn;
      by rewrite <- !app_assoc.
  - by rewrite <- !app_assoc.
  - by rewrite <- !app_assoc.
Qed.

(** What a press does, by the three ways through [onPressListen]. *)
Lemma onPressListen_run (props : Props) (net : Linking) (w : World) :
  onPressListen props net w
  = (Resolved tt,
     {| paused := AudioPlayer.paused w; player := player w;
        log := log w ++
          match source props with
          | Some url =>
              if truthy (Some url) then
                match isIOS, player w with
                | true, Some ref => [PresentFullscreenPlayer ref]
                | _, _ => Spec.pressOutcome net url
                end
              else []
          | None => []
          end |}).
Proof.
  assert (∀ w : World, w = {| paused := AudioPlayer.paused w; player := player w;
                              log := log w ++ [] |}) as Hw.
  { intros [? ? ?]. cbn. by rewrite app_nil_r. }
  unfold onPressListen. destruct (source props) as [url|]; [|cbn; by rewrite <- Hw].
  destruct (truthy (Some url)); [|cbn; by rewrite <- Hw].
  unfold mbind, M_bind, bind, this_player.
  destruct w as [pa [ref|] lg], isIOS; cbn;
    first [reflexivity | unfold forget; by rewrite listenChain_run].
Qed.

(** Whatever the world the reactions find, they add the same entries. *)
Lemma listenChain_anywhere (url : string) (net : Linking) (w w' : World) :
  ∃ added,
    log (listenChain url net w).2 = log w ++ added
    ∧ log (listenChain url net w').2 = log w' ++ added.
Proof. exists (Spec.pressOutcome net url). by rewrite !listenChain_run. Qed.

Lemma onPressListen_keeps_state (props : Props) (net : Linking) (w : World) :
  AudioPlayer.paused (onPressListen props net w).2 = AudioPlayer.paused w.
Proof. by rewrite onPressListen_run. Qed.

(** C1.  A press with a non-empty [source] that does not go to the
    fullscreen player adds to the log the capability check and then, by
    how [Linking] answers: the alert that no application can handle the
    request when the check resolves to [false]; the alert of an unknown
    error when the check rejects, or when it resolves to [true] and the
    open rejects; no alert when the open resolves.  Nothing else is done
    and the press itself completes normally. *)
Theorem press_alerts_exactly_on_failed_open
    (props : Props) (net : Linking) (w : World) (url : string) :
  source props = Some url → url ≠ "" →
  isIOS = false ∨ player w = None →
  let heading := __ "Problem opening the audio" in
  let noApplication :=
    AlertShown heading (__ "No application can handle this request.") in
  let unknown :=
    AlertShown heading (__ "An unknown error occurred. Please try again.") in
  ∃ added,
    onPressListen props net w
    = (Resolved tt,
       {| paused := AudioPlayer.paused w; player := player w;
          log := log w ++ added |})
    ∧ (canOpenURL_settles net url = Resolved false →
       added = [CanOpenURL url; noApplication])
    ∧ (∀ r, canOpenURL_settles net url = Rejected r →
       added = [CanOpenURL url; unknown])
    ∧ (canOpenURL_settles net url = Resolved true →
       ∀ r, openURL_settles net url = Rejected r →
       added = [CanOpenURL url; OpenURL url; unknown])
    ∧ (canOpenURL_settles net url = Resolved true →
       ∀ u, openURL_settles net url = Resolved u →
       added = [CanOpenURL url; OpenURL url]).
Proof.
  intros Hsrc Hne Hpath heading noApplication unknown.
  exists (Spec.pressOutcome net url). split.
  - rewrite onPressListen_run, Hsrc.
    assert (truthy (Some url) = true) as ->
      by (apply negb_true_iff, String.eqb_neq, Hne).
    destruct Hpath as [-> | ->]; [done|]. by destruct isIOS.
  - unfold Spec.pressOutcome.
    destruct (canOpenURL_settles net url) as [[|]|r];
      destruct (openURL_settles net url) as [u|r'];
      repeat split; intros; congruence.
Qed.

(** C3.  What one press adds to the log is nothing, or the one call to
    present the fullscreen player (on iOS with a player reference, where
    no check, open or alert happens), or the capability check on the
    source followed by what its success and failure branches do, with no
    second check among them: at most one check per press. *)
Theorem press_starts_at_most_one_check
    (props : Props) (net : Linking) (w : World) :
  ∃ added,
    onPressListen props net w
    = (Resolved tt,
       {| paused := AudioPlayer.paused w; player := player w;
          log := log w ++ added |})
    ∧ count isCheck added ≤ 1
    ∧ (added = []
       ∨ (∃ ref, isIOS = true ∧ player w = Some ref
                 ∧ added = [PresentFullscreenPlayer ref])
       ∨ (∃ url tail, source props = Some url
                      ∧ added = CanOpenURL url :: tail
                      ∧ added = Spec.pressOutcome net url
                      ∧ count isCheck tail = 0))
    ∧ (isIOS = true → is_Some (player w) →
       count isCheck added = 0 ∧ count isOpen added = 0 ∧ count isAlert added = 0).
Proof.
  eexists. split; [apply onPressListen_run|].
  destruct (source props) as [url|]; [|cbn; split; [lia|]; split; [by left | done]].
  destruct (truthy (Some url)); [|cbn; split; [lia|]; split; [by left | done]].
  assert (count isCheck (Spec.pressOutcome net url) ≤ 1
          ∧ ∃ tail, Spec.pressOutcome net url = CanOpenURL url :: tail
                    ∧ count isCheck tail = 0) as [Hle (tail & Htail & Hnone)].
  { unfold Spec.pressOutcome.
    destruct (canOpenURL_settles net url) as [[|]|r];
      [destruct (openURL_settles net url) as [u|r']| |];
      (split; [cbn; lia | by eexists]). }
  destruct isIOS, (player w) as [ref|].
  - split; [cbn; lia|]. split; [|done].
    right; left. by exists ref.
  - split; [exact Hle|]. split; [|by intros _ [? ?]].
    right; right. by exists url, tail.
  - split; [exact Hle|]. split; [|done].
    right; right. by exists url, tail.
  - split; [exact Hle|]. split; [|done].
    right; right. by exists url, tail.
Qed.

(** C5.  The promise chain always resolves and leaves [paused] alone, and
    so does the press.  Whenever a press shows an alert, that alert is
    the last thing it does, it is the only alert, and the press made one
    capability check and at most one attempt to open the URL. *)
Theorem alert_ends_the_chain (props : Props) (net : Linking) (w : World) :
  ∃ added,
    onPressListen props net w
    = (Resolved tt,
       {| paused := AudioPlayer.paused w; player := player w;
          log := log w ++ added |})
    ∧ (∀ url w0, (listenChain url net w0).1 = Resolved tt
                 ∧ AudioPlayer.paused (listenChain url net w0).2
                   = AudioPlayer.paused w0)
    ∧ (∀ heading message, AlertShown heading message ∈ added →
         last added = Some (AlertShown heading message)
         ∧ count isAlert added = 1
         ∧ count isCheck added = 1
         ∧ count isOpen added ≤ 1).
Proof.
  eexists. split; [apply onPressListen_run|].
  split; [intros url w0; by rewrite listenChain_run|].
  intros heading message.
  destruct (source props) as [url|]; [|by intros ?%elem_of_nil].
  destruct (truthy (Some url)); [|by intros ?%elem_of_nil].
  assert (AlertShown heading message ∈ Spec.pressOutcome net url →
          last (Spec.pressOutcome net url) = Some (AlertShown heading message)
          ∧ count isAlert (Spec.pressOutcome net url) = 1
          ∧ count isCheck (Spec.pressOutcome net url) = 1
          ∧ count isOpen (Spec.pressOutcome net url) ≤ 1) as Hout.
  { unfold Spec.pressOutcome.
    destruct (canOpenURL_settles net url) as [[|]|r];
      [destruct (openURL_settles net url) as [u|r']| |];
      rewrite ?elem_of_cons, elem_of_nil; cbn; intros Hin;
      repeat match goal with
             | H : _ ∨ _ |- _ => destruct H
             | H : False |- _ => destruct H
             | H : AlertShown _ _ = _ |- _ => first [discriminate H | injection H as -> ->]
             end; repeat split; lia. }
  destruct isIOS, (player w) as [ref|]; try exact Hout.
  rewrite list_elem_of_singleton. discriminate.
Qed.

End Pressing.

(** *** The [paused] flag over the life of the component *)

Section Lifecycle.
Context `{Host}.

(** C4.  The [paused] flag starts as [true] and is handed to the video
    element as it is.  One event moves it to [false] when it is the
    fullscreen player about to present, to [true] when it is the
    fullscreen player dismissed, and not at all when it is a press or a
    [ref] callback; the same holds along any sequence of events. *)
Theorem paused_moves_only_on_fullscreen_callbacks :
  AudioPlayer.paused mounted = true
  ∧ (∀ props b, ∃ v, Player props b = Resolved v ∧ pausedProp (video v) = b)
  ∧ (∀ props net w e,
       AudioPlayer.paused (step props net w e)
       = Spec.pausedAfter (AudioPlayer.paused w) e)
  ∧ (∀ props net w events,
       AudioPlayer.paused (run props net w events)
       = fold_left Spec.pausedAfter events (AudioPlayer.paused w)).
Proof.
  assert (∀ props net w e,
            AudioPlayer.paused (step props net w e)
            = Spec.pausedAfter (AudioPlayer.paused w) e) as Hstep.
  { intros props net w e. unfold step.
    destruct (Player_handlers props (AudioPlayer.paused w))
      as (v & -> & _ & Href & Hwill & Hdid & Hlisten).
    destruct e; unfold dispatch; cbn [Spec.pausedAfter].
    - destruct (listen v) as [control|]; [|done].
      destruct (isDisabled props); [discriminate|].
      injection Hlisten as ->. apply onPressListen_keeps_state.
    - by rewrite Hwill.
    - by rewrite Hdid.
    - by rewrite Href. }
  split; [reflexivity|]. split.
  { intros props b.
    destruct (Player_handlers props b) as (v & Hv & Hp & _). by exists v. }
  split; [exact Hstep|].
  intros props net w events. revert w. unfold run.
  induction events as [|e events IH]; intros w; [done|].
  cbn [fold_left]. by rewrite IH, Hstep.
Qed.

End Lifecycle.

(** *** The statements above at concrete hosts, props and answers *)

Import Sample.

Lemma title_and_extension_cut_at_last_dot_witness :
  fileName song = Some "song.final.mp3"
  ∧ "song.final.mp3" ≠ ""
  ∧ occurs "." "song.final.mp3" = true
  ∧ @titleAndExtension android song = Resolved ("song.final", "MP3")
  ∧ "song.final.mp3" = "song.final" +:+ "." +:+ "mp3".
Proof.
  split; [reflexivity|]. split; [discriminate|]. split; [reflexivity|].
  destruct (@title_and_extension_cut_at_last_dot android song true) as [Hcut _].
  destruct (Hcut "song.final.mp3" eq_refl ltac:(discriminate))
    as (Hte & _ & Hdot).
  split; [exact Hte|]. exact (proj1 (Hdot eq_refl)).
Defined.

Lemma no_dot_whole_name_is_extension_witness :
  @toUpperCase android "" = ""
  ∧ fileName README = Some "README"
  ∧ occurs "." "README" = false
  ∧ @titleAndExtension android README = Resolved ("", "README").
Proof.
  split; [reflexivity|]. split; [reflexivity|]. split; [reflexivity|].
  exact (proj1 (@no_dot_whole_name_is_extension android README true "README"
                  eq_refl eq_refl eq_refl)).
Defined.

Lemma styles_and_subtitle_follow_the_inputs_witness :
  fileName song = fileName songMirror
  ∧ isUploadInProgress song = isUploadInProgress songMirror
  ∧ isUploadFailed song = isUploadFailed songMirror
  ∧ (∀ a b, getStylesFromColorScheme song a b
            = getStylesFromColorScheme songMirror a b)
  ∧ ∃ v1 v2,
      @Player android song true = Resolved v1
      ∧ @Player android songMirror false = Resolved v2
      ∧ styleObjects v1 = styleObjects v2
      ∧ subtitleText v1 = subtitleText v2.
Proof.
  split; [reflexivity|]. split; [reflexivity|]. split; [reflexivity|].
  split; [reflexivity|].
  exact (@styles_and_subtitle_follow_the_inputs android song songMirror true false
           eq_refl eq_refl eq_refl (fun a b => eq_refl)).
Defined.

Lemma listen_only_while_enabled_witness :
  (isUploadFailed stuck = true ∨ isUploadInProgress stuck = true)
  ∧ ∃ v, @Player android stuck true = Resolved v
       ∧ listen v = None
       ∧ @step android stuck working mounted PressListen = mounted.
Proof.
  split; [left; reflexivity|].
  destruct (@listen_only_while_enabled android stuck true) as (_ & v & Hv & _ & Hoff).
  destruct (Hoff (or_introl eq_refl)) as [Hnone Hpress].
  exists v. split; [exact Hv|]. split; [exact Hnone|].
  exact (proj2 (Hpress working mounted)).
Defined.

Lemma press_alerts_exactly_on_failed_open_witness :
  source song = Some "https://example.org/a/song.final.mp3"
  ∧ "https://example.org/a/song.final.mp3" ≠ ""
  ∧ (@isIOS android = false ∨ player mounted = None)
  ∧ canOpenURL_settles refusing "https://example.org/a/song.final.mp3"
    = Resolved true
  ∧ openURL_settles refusing "https://example.org/a/song.final.mp3"
    = Rejected "no activity"
  ∧ ∃ added,
      @onPressListen android song refusing mounted
      = (Resolved tt, {| paused := true; player := None; log := added |})
      ∧ added
        = [ CanOpenURL "https://example.org/a/song.final.mp3";
            OpenURL "https://example.org/a/song.final.mp3";
            AlertShown "Problem opening the audio"
                       "An unknown error occurred. Please try again." ].
Proof.
  split; [reflexivity|]. split; [discriminate|]. split; [left; reflexivity|].
  split; [reflexivity|]. split; [reflexivity|].
  destruct (@press_alerts_exactly_on_failed_open android song refusing mounted
              "https://example.org/a/song.final.mp3"
              eq_refl ltac:(discriminate) (or_introl eq_refl))
    as (added & Hrun & _ & _ & Hrejected & _).
  exists added. split; [exact Hrun|].
  exact (Hrejected eq_refl "no activity" eq_refl).
Defined.

Lemma press_starts_at_most_one_check_witness :
  @isIOS ios = true
  ∧ is_Some (player withPlayer)
  ∧ ∃ added,
      @onPressListen ios song working withPlayer
      = (Resolved tt, {| paused := true; player := Some 7; log := added |})
      ∧ count isCheck added = 0.
Proof.
  split; [reflexivity|]. split; [exists 7; reflexivity|].
  destruct (@press_starts_at_most_one_check ios song working withPlayer)
    as (added & Hrun & _ & _ & Hios).
  exists added. split; [exact Hrun|].
  exact (proj1 (Hios eq_refl (ex_intro _ 7 eq_refl))).
Defined.

Lemma alert_ends_the_chain_witness :
  ∃ added,
    @onPressListen android song unsupported mounted
    = (Resolved tt, {| paused := true; player := None; log := added |})
    ∧ AlertShown "Problem opening the audio"
                 "No application can handle this request." ∈ added
    ∧ last added
      = Some (AlertShown "Problem opening the audio"
                         "No application can handle this request.")
    ∧ count isCheck added = 1.
Proof.
  destruct (@alert_ends_the_chain android song unsupported mounted)
    as (added & Hrun & _ & Hlast).
  exists added. split; [exact Hrun|].
  assert (added = [ CanOpenURL "https://example.org/a/song.final.mp3";
                    AlertShown "Problem opening the audio"
                               "No application can handle this request." ])
    as Hadded.
  { injection Hrun as Hlog. symmetry. exact Hlog. }
  assert (AlertShown "Problem opening the audio"
                     "No application can handle this request." ∈ added) as Hin.
  { rewrite Hadded. apply list_elem_of_further, list_elem_of_here. }
  split; [exact Hin|].
  destruct (Hlast _ _ Hin) as (Hl & _ & Hc & _). split; [exact Hl | exact Hc].
Defined.

(** *** Runs *)

Example song_rendered :
  (λ v, (titleText v, subtitleText v)) <$> resolution (@Player android song true)
  = Some ("song.final", "MP3 audio file").
Proof. reflexivity. Qed.

Example failed_upload_rendered :
  (λ v, (titleText v, subtitleText v, buttonLabel <$> listen v))
    <$> resolution (@Player android stuckDark true)
  = Some ("", "Failed to insert audio file. Please tap for options.", None).
Proof. reflexivity. Qed.

Example failed_upload_styles :
  (λ v, (finalIconStyle v, finalSubtitleStyle v, warningIcon v))
    <$> resolution (@Player android stuckDark true)
  = Some ({[ "fill" := "#3c434a" ]}, {[ "color" := "#ff8085" ]},
          Some {[ "width" := "16"; "color" := "#ff8085" ]}).
Proof. vm_compute. reflexivity. Qed.

Example press_unsupported :
  log (@step android song unsupported mounted PressListen)
  = [ CanOpenURL "https://example.org/a/song.final.mp3";
      AlertShown "Problem opening the audio"
                 "No application can handle this request." ].
Proof. reflexivity. Qed.

Example press_offline_on_ios_before_the_ref :
  log (@step ios song offline mounted PressListen)
  = [ CanOpenURL "https://example.org/a/song.final.mp3";
      AlertShown "Problem opening the audio"
                 "An unknown error occurred. Please try again." ].
Proof. reflexivity. Qed.

Example press_on_ios_with_the_ref :
  log (@step ios song offline withPlayer PressListen) = [ PresentFullscreenPlayer 7 ].
Proof. reflexivity. Qed.

Example press_with_an_empty_source :
  (λ v, (titleText v, subtitleText v, buttonLabel <$> listen v))
    <$> resolution (@Player android emptySource true)
  = Some ("", " audio file", Some "Listen")
  ∧ @step android emptySource working mounted PressListen = mounted.
Proof. split; reflexivity. Qed.

Example fullscreen_round_trip :
  AudioPlayer.paused <$>
    [ @run ios song working mounted [RefCallback (Some 7); PressListen];
      @run ios song working mounted
        [RefCallback (Some 7); PressListen; FullscreenPlayerWillPresent];
      @run ios song working mounted
        [RefCallback (Some 7); PressListen; FullscreenPlayerWillPresent;
         FullscreenPlayerDidDismiss] ]
  = [true; false; true].
Proof. reflexivity. Qed.

End PlayerFacts.

Module NextPageFacts.
Import NextPage.

(** C6.  The module exports under [name] the [name] field of
    [block.json] and under [settings] an object whose own keys are
    exactly [title], [description], [icon], [keywords], [example],
    [transforms], [edit] and [save], in this order, with the translated
    ['Page Break'] as title, the two translated keywords, an empty
    [example], and the four imported bindings passed on. *)
Theorem exports_name_and_settings `{Host} (metadata : jsval) :
  get (exports metadata) "name" = get metadata "name"
  ∧ get (exports metadata) "settings" = settings
  ∧ keys settings
    = [ "title"; "description"; "icon"; "keywords"; "example";
        "transforms"; "edit"; "save" ]
  ∧ get settings "title" = JString (__ "Page Break")
  ∧ get settings "description"
    = JString (__ "Separate your content into a multi-page experience.")
  ∧ get settings "icon" = icon
  ∧ get settings "keywords"
    = JArray [ JString (__ "next page"); JString (__ "pagination") ]
  ∧ get settings "example" = JObject []
  ∧ get settings "transforms" = transforms
  ∧ get settings "edit" = edit
  ∧ get settings "save" = save.
Proof. repeat split. Qed.

End NextPageFacts.

(** ** Facts about the button block's editor *)

Module ButtonFacts.
Import Button.

(** *** Removing anchor tags *)

Lemma append_String (c : ascii) (s t : string) :
  String c s +:+ t = String c (s +:+ t).
Proof. reflexivity. Qed.

Lemma append_empty_l (s : string) : "" +:+ s = s.
Proof. reflexivity. Qed.

Lemma append_assoc (s t u : string) : (s +:+ t) +:+ u = s +:+ t +:+ u.
Proof. induction s as [|c s IH]; [done|]. rewrite !append_String. by f_equal. Qed.

Lemma append_empty_r (s : string) : s +:+ "" = s.
Proof. induction s as [|c s IH]; [done|]. rewrite append_String. by f_equal. Qed.

Lemma length_append (s t : string) :
  String.length (s +:+ t) = String.length s + String.length t.
Proof. induction s as [|c s IH]; [done|]. rewrite append_String. cbn. by rewrite IH. Qed.

Lemma untilGt_found (attrs rest : string) :
  JS.occurs ">" attrs = false →
  untilGt (attrs +:+ String ">" rest) = Some (S (String.length attrs)).
Proof.
  induction attrs as [|c attrs IH]; [done|].
  cbn [JS.occurs]. intros [Hc Hrest]%orb_false_iff.
  rewrite append_String. cbn [untilGt String.length]. by rewrite Hc, IH.
Qed.

Lemma replaceFrom_pending (dropped s : string) :
  replaceFrom (String.length dropped) (dropped +:+ s) = replaceFrom 0 s.
Proof. induction dropped as [|c dropped IH]; [done | exact IH]. Qed.

Lemma anchorTagAt_needs_lt (c : ascii) (s : string) :
  Ascii.eqb c "<" = false → anchorTagAt (String c s) = None.
Proof.
  intros Hc. unfold anchorTagAt.
  destruct c as [[] [] [] [] [] [] [] []]; try reflexivity; discriminate.
Qed.

(** A match at the head is dropped and the scan goes on behind it. *)
Lemma replaceFrom_drops_match (tag rest : string) :
  tag ≠ "" →
  anchorTagAt (tag +:+ rest) = Some (String.length tag) →
  replaceFrom 0 (tag +:+ rest) = replaceFrom 0 rest.
Proof.
  destruct tag as [|c tag]; [done|]. intros _ Hat.
  change (String c tag +:+ rest) with (String c (tag +:+ rest)) in *.
  cbn [replaceFrom]. rewrite Hat. cbn [String.length].
  replace (S (String.length tag) - 1) with (String.length tag) by lia.
  apply replaceFrom_pending.
Qed.


Lemma replaceFrom_keeps_plain (plain s : string) :
  JS.occurs "<" plain = false →
  replaceFrom 0 (plain +:+ s) = plain +:+ replaceFrom 0 s.
Proof.
  induction plain as [|c plain IH]; [done|].
  cbn [JS.occurs]. intros [Hc Hplain]%orb_false_iff.
  change (String c plain +:+ s) with (String c (plain +:+ s)).
  cbn [replaceFrom]. rewrite (anchorTagAt_needs_lt c _ Hc).
  by rewrite IH.
Qed.

(** X1.  An anchor element whose opening tag closes at its first ['>']
    and whose content holds no ['<'] is replaced by its content: both
    tags go, the text between them stays.  The same holds for any tag
    whose name only starts with [a]. *)
Theorem anchor_element_leaves_its_label (attrs label : string) :
  JS.occurs ">" attrs = false →
  JS.occurs "<" label = false →
  replaceAnchorTags ("<a" +:+ attrs +:+ ">" +:+ label +:+ "</a>") = label.
Proof.
  intros Hattrs Hlabel. unfold replaceAnchorTags.
  replace ("<a" +:+ attrs +:+ ">" +:+ label +:+ "</a>")
    with (("<a" +:+ attrs +:+ ">") +:+ label +:+ "</a>")
    by (by rewrite <- !append_assoc).
  rewrite replaceFrom_drops_match.
  - rewrite (replaceFrom_keeps_plain label "</a>" Hlabel).
    change (replaceFrom 0 "</a>") with "". apply append_empty_r.
  - discriminate.
  - rewrite !append_assoc, !append_String, !append_empty_l. cbn [anchorTagAt].
    rewrite (untilGt_found attrs _ Hattrs).
    cbn. rewrite length_append. cbn. f_equal. lia.
Qed.

(** X2.  Text up to the first ['<'] is copied unchanged and the
    replacement goes on behind it; a text without any ['<'] is returned
    as it is. *)
Theorem text_before_first_lt_is_kept (plain s : string) :
  JS.occurs "<" plain = false →
  replaceAnchorTags (plain +:+ s) = plain +:+ replaceAnchorTags s
  ∧ replaceAnchorTags plain = plain.
Proof.
  intros Hplain. unfold replaceAnchorTags. split.
  - by apply replaceFrom_keeps_plain.
  - rewrite <- (append_empty_r plain) at 1.
    rewrite (replaceFrom_keeps_plain plain "" Hplain). apply append_empty_r.
Qed.

Lemma replaceFrom_length (pending : nat) (s : string) :
  String.length (replaceFrom pending s) ≤ String.length s.
Proof.
  revert pending. induction s as [|c s IH]; intros pending; [done|].
  cbn [replaceFrom]. destruct pending as [|k].
  - destruct (anchorTagAt (String c s)) as [n|].
    + specialize (IH (n - 1)). cbn [String.length]. lia.
    + specialize (IH 0). cbn [String.length]. lia.
  - specialize (IH k). cbn [String.length]. lia.
Qed.

(** X3.  The replacement never makes a text longer, and makes it
    shorter whenever the text starts with a match. *)
Theorem replaceAnchorTags_never_grows (s : string) :
  String.length (replaceAnchorTags s) ≤ String.length s
  ∧ (is_Some (anchorTagAt s) →
     String.length (replaceAnchorTags s) < String.length s).
Proof.
  split; [apply replaceFrom_length|].
  intros [n Hn]. unfold replaceAnchorTags.
  destruct s as [|c s]; [discriminate|].
  cbn [replaceFrom]. rewrite Hn.
  pose proof (replaceFrom_length (n - 1) s). cbn [String.length]. lia.
Qed.

(** X4.  One pass does not always remove every anchor tag: from
    ['<<a>a' + s + '>'] the inner ['<a>'] is taken out and what is left,
    ['<a' + s + '>'], is an anchor tag itself, which a second pass would
    delete.  The replacement is not idempotent. *)
Theorem one_pass_can_leave_an_anchor_tag (s : string) :
  JS.occurs "<" s = false →
  JS.occurs ">" s = false →
  replaceAnchorTags ("<<a>a" +:+ s +:+ ">") = "<a" +:+ s +:+ ">"
  ∧ anchorTagAt ("<a" +:+ s +:+ ">") = Some (String.length ("<a" +:+ s +:+ ">"))
  ∧ replaceAnchorTags ("<a" +:+ s +:+ ">") = "".
Proof.
  intros Hlt Hgt.
  assert (anchorTagAt ("<a" +:+ s +:+ ">")
          = Some (String.length ("<a" +:+ s +:+ ">"))) as Htag.
  { rewrite !append_String, append_empty_l. cbn [anchorTagAt].
    rewrite (untilGt_found s "" Hgt). cbn. rewrite length_append. cbn.
    f_equal. lia. }
  split; [|split; [exact Htag|]].
  - unfold replaceAnchorTags. rewrite !append_String, append_empty_l.
    cbn [replaceFrom anchorTagAt]. f_equal.
    change (replaceFrom 2 (String "a" (String ">" (String "a" (s +:+ ">")))))
      with (replaceFrom 0 (String "a" (s +:+ ">"))).
    cbn [replaceFrom anchorTagAt]. f_equal.
    assert (JS.occurs "<" (s +:+ ">") = false) as Hplain.
    { clear Hgt Htag. induction s as [|c s IH]; [done|].
      rewrite append_String. cbn [JS.occurs] in *.
      apply orb_false_iff in Hlt as [-> Hs]. by rewrite IH. }
    rewrite <- (append_empty_r (s +:+ ">")) at 1.
    rewrite (replaceFrom_keeps_plain _ "" Hplain). apply append_empty_r.
  - unfold replaceAnchorTags.
    rewrite <- (append_empty_r ("<a" +:+ s +:+ ">")) at 1.
    rewrite replaceFrom_drops_match; [done | discriminate |].
    by rewrite append_empty_r.
Qed.


(** *** The editor *)

Section Editing.
Context `{Host}.

Lemma ButtonEdit_fields (props : Props) (memo : option (nat * (value → Action))) :
  let attributes := blockAttributes props in
  let v := (ButtonEdit props memo).1 in
  let border :=
    BorderPanel (attribute attributes "borderRadius") (setAttributesId props) memo in
  richTextOnChange v = setButtonText
  ∧ urlPicker v
    = URLPicker (isSelected props) (attribute attributes "url")
        (Bool (strictEq (attribute attributes "linkTarget") (Str "_blank")))
        (onToggleOpenInNewTab (attribute attributes "rel"))
        (toolbarItemProps props)
  ∧ borderPanel v = border.1
  ∧ (ButtonEdit props memo).2 = border.2
  ∧ widthPanel v = WidthPanel (attribute attributes "width")
  ∧ linkRelOnChange v = onSetLinkRel.
Proof.
  cbn zeta. unfold ButtonEdit.
  destruct (BorderPanel _ _ _) as [border memo']. by repeat split.
Qed.

Lemma step_unfold (props : Props) (m : Mounted) (e : event) :
  step props m e
  = {| editor :=
         dispatch (ButtonEdit (propsFor props (editor m)) (borderMemo m)).1 e (editor m);
       borderMemo := (ButtonEdit (propsFor props (editor m)) (borderMemo m)).2 |}.
Proof. unfold step. by destruct (ButtonEdit _ _). Qed.

(** Reading back after [setAttributes]. *)
Lemma attribute_updated (update : gmap string value) (ed : Editor) (key : string) :
  attribute (attributes (setAttributes update ed)) key
  = match update !! key with
    | Some v => v
    | None => attribute (attributes ed) key
    end.
Proof.
  unfold attribute, setAttributes. cbn. rewrite lookup_union.
  destruct (update !! key), (attributes ed !! key); reflexivity.
Qed.

(** The handler each event reaches. *)
Lemma step_rich_text (props : Props) (m : Mounted) (newText : string) :
  editor (step props m (RichTextChange newText)) = setButtonText newText (editor m).
Proof.
  rewrite step_unfold. cbn [editor dispatch].
  by destruct (ButtonEdit_fields (propsFor props (editor m)) (borderMemo m)) as (-> & _).
Qed.

Lemma step_link_change (props : Props) (m : Mounted) (newURL newOpensInNewTab : value) :
  let old := attributes (editor m) in
  editor (step props m (LinkControlChange newURL newOpensInNewTab))
  = andThen
      (setAttributes {[ "url" := if strictEq newURL Undefined then Str "" else newURL ]})
      (if negb (strictEq (Bool (strictEq (attribute old "linkTarget") (Str "_blank")))
                  newOpensInNewTab)
       then onToggleOpenInNewTab (attribute old "rel") newOpensInNewTab
       else skip)
      (editor m).
Proof.
  cbn zeta. rewrite step_unfold. cbn [editor dispatch].
  by destruct (ButtonEdit_fields (propsFor props (editor m)) (borderMemo m))
    as (_ & -> & _).
Qed.

Lemma step_shortcut (props : Props) (m : Mounted) (keys : shortcut) (type : string) :
  editor (step props m (Shortcut keys type))
  = if bool_decide (keys = primary "k") then onToggle (editor m)
    else if bool_decide (keys = primaryShift "k") then onRemove type (editor m)
    else editor m.
Proof.
  rewrite step_unfold. cbn [editor dispatch].
  destruct (ButtonEdit_fields (propsFor props (editor m)) (borderMemo m))
    as (_ & -> & _).
  cbn [URLPicker shortcuts List.find fst snd].
  repeat case_bool_decide; by simplify_eq.
Qed.

Lemma step_unlink (props : Props) (m : Mounted) (type : string) :
  editor (step props m (Shortcut (primaryShift "k") type)) = onRemove type (editor m).
Proof. by rewrite step_shortcut. Qed.

Lemma step_toolbar (props : Props) (m : Mounted) (type : string) :
  editor (step props m (ToolbarLinkClick type))
  = if truthy (attribute (attributes (editor m)) "url")
    then onRemove type (editor m)
    else match itemOnClick (toolbarItemProps props) with
         | Some handler => handler type (editor m)
         | None => editor m
         end.
Proof.
  rewrite step_unfold. cbn [editor dispatch].
  destruct (ButtonEdit_fields (propsFor props (editor m)) (borderMemo m))
    as (_ & -> & _).
  cbn [URLPicker propsFor blockAttributes toolbarItemProps toggle].
  destruct (truthy (attribute (attributes (editor m)) "url")); cbn; [done|].
  by destruct (itemOnClick (toolbarItemProps props)).
Qed.

Lemma step_link_rel (props : Props) (m : Mounted) (v : value) :
  editor (step props m (LinkRelChange v)) = onSetLinkRel v (editor m).
Proof.
  rewrite step_unfold. cbn [editor dispatch].
  by destruct (ButtonEdit_fields (propsFor props (editor m)) (borderMemo m))
    as (_ & _ & _ & _ & _ & ->).
Qed.

Lemma step_width (props : Props) (m : Mounted) (index : nat) :
  editor (step props m (WidthButtonClick index))
  = match [25; 50; 75; 100]%Z !! index with
    | Some w =>
        handleChange (attribute (attributes (editor m)) "width") (Num w) (editor m)
    | None => editor m
    end.
Proof.
  rewrite step_unfold. cbn [editor dispatch].
  destruct (ButtonEdit_fields (propsFor props (editor m)) (borderMemo m))
    as (_ & _ & _ & _ & -> & _).
  cbn [propsFor blockAttributes].
  by do 4 (destruct index as [|index]; [reflexivity|]).
Qed.

Lemma onRemove_attribute (type : string) (ed : Editor) (key : string) :
  attribute (attributes (onRemove type ed)) key
  = if bool_decide (key = "url") || bool_decide (key = "linkTarget")
       || bool_decide (key = "rel")
    then Undefined else attribute (attributes ed) key.
Proof.
  unfold onRemove, andThen.
  assert (∀ ed', attributes ((if String.eqb type "keydown" then onClose else skip) ed')
                 = attributes ed') as -> by (intros ed'; by destruct (String.eqb _ _)).
  rewrite attribute_updated.
  repeat case_bool_decide; simplify_map_eq; done.
Qed.

(** X6.  After a change reported by [LinkControl] the [url] attribute is
    the new URL, or the empty string when none came, and the link target
    is ['_blank'] exactly when the reported [opensInNewTab] is truthy;
    no attribute other than [url], [linkTarget] and [rel] is touched. *)
Theorem link_change_sets_url_and_target
    (props : Props) (m : Mounted) (newURL newOpensInNewTab : value) :
  let after :=
    attributes (editor (step props m (LinkControlChange newURL newOpensInNewTab))) in
  attribute after "url" = (if strictEq newURL Undefined then Str "" else newURL)
  ∧ strictEq (attribute after "linkTarget") (Str "_blank") = truthy newOpensInNewTab
  ∧ (∀ key, key ≠ "url" → key ≠ "linkTarget" → key ≠ "rel" →
       attribute after key = attribute (attributes (editor m)) key).
Proof.
  cbn zeta. rewrite step_link_change. unfold andThen.
  destruct (strictEq (Bool (strictEq (attribute (attributes (editor m)) "linkTarget")
                              (Str "_blank"))) newOpensInNewTab) eqn:Hsame; cbn [negb].
  - unfold skip. rewrite !attribute_updated.
    apply bool_decide_eq_true in Hsame. subst newOpensInNewTab.
    split; [by simplify_map_eq|]. split; [by simplify_map_eq|].
    intros key ? ? ?. rewrite attribute_updated. by simplify_map_eq.
  - unfold onToggleOpenInNewTab. rewrite !attribute_updated.
    split; [by simplify_map_eq|]. split.
    + simplify_map_eq. by destruct (truthy newOpensInNewTab).
    + intros key ? ? ?. rewrite !attribute_updated. by simplify_map_eq.
Qed.

(** X7.  Switching "open in new tab" on and off again, from a link that
    did not open in a new tab: while on, the target is ['_blank'] and
    [rel] is the one there was, or ['noreferrer noopener'] when there
    was none; once off, the target is gone and [rel] is back to a
    [rel] of the user's own, but gone when it was empty or equal to
    ['noreferrer noopener']. *)
Theorem new_tab_on_and_off
    (props : Props) (m : Mounted) (url1 url2 : value) :
  let before := attributes (editor m) in
  strictEq (attribute before "linkTarget") (Str "_blank") = false →
  let on := step props m (LinkControlChange url1 (Bool true)) in
  let off := step props on (LinkControlChange url2 (Bool false)) in
  attribute (attributes (editor on)) "linkTarget" = Str "_blank"
  ∧ attribute (attributes (editor on)) "rel"
    = (if truthy (attribute before "rel") then attribute before "rel"
       else Str NEW_TAB_REL)
  ∧ attribute (attributes (editor off)) "linkTarget" = Undefined
  ∧ attribute (attributes (editor off)) "rel"
    = (if truthy (attribute before "rel")
          && negb (strictEq (attribute before "rel") (Str NEW_TAB_REL))
       then attribute before "rel" else Undefined).
Proof.
  cbn zeta. intros Hoff.
  set (on := step props m (LinkControlChange url1 (Bool true))).
  assert (attribute (attributes (editor on)) "linkTarget" = Str "_blank"
          ∧ attribute (attributes (editor on)) "rel"
            = (if truthy (attribute (attributes (editor m)) "rel")
               then attribute (attributes (editor m)) "rel"
               else Str NEW_TAB_REL)) as [Htarget Hrel].
  { unfold on. rewrite step_link_change, Hoff.
    change (negb (strictEq (Bool false) (Bool true))) with true. cbn iota.
    unfold andThen, onToggleOpenInNewTab. rewrite !attribute_updated.
    simplify_map_eq. split; [done|].
    by destruct (truthy (attribute (attributes (editor m)) "rel")). }
  split; [exact Htarget|]. split; [exact Hrel|].
  rewrite step_link_change, Htarget, Hrel.
  change (negb (strictEq (Bool (strictEq (Str "_blank") (Str "_blank"))) (Bool false)))
    with true. cbn iota.
  unfold andThen, onToggleOpenInNewTab. rewrite !attribute_updated.
  simplify_map_eq. split; [done|].
  destruct (truthy (attribute (attributes (editor m)) "rel")) eqn:Hr; cbn.
  - by destruct (strictEq (attribute (attributes (editor m)) "rel") (Str NEW_TAB_REL)).
  - reflexivity.
Qed.

(** X10.  The unlink shortcut sets [url], [linkTarget] and [rel] to
    [undefined], whatever they were and whether a URL was set at all,
    leaves every other attribute, and closes the dropdown exactly when
    the event is a ['keydown'].  The next render shows the [Link]
    button, with the click handler of the toolbar item, and a dropdown
    that does not open on mount. *)
Theorem unlink_clears_the_link (props : Props) (m : Mounted) (type : string) :
  let after := step props m (Shortcut (primaryShift "k") type) in
  let rendered :=
    (ButtonEdit (propsFor props (editor after)) (borderMemo after)).1 in
  attribute (attributes (editor after)) "url" = Undefined
  ∧ attribute (attributes (editor after)) "linkTarget" = Undefined
  ∧ attribute (attributes (editor after)) "rel" = Undefined
  ∧ (∀ key, key ≠ "url" → key ≠ "linkTarget" → key ≠ "rel" →
       attribute (attributes (editor after)) key
       = attribute (attributes (editor m)) key)
  ∧ closed (editor after)
    = closed (editor m) + (if String.eqb type "keydown" then 1 else 0)
  ∧ toggleTitle (toggle (urlPicker rendered)) = __ "Link"
  ∧ toggleOnClick (toggle (urlPicker rendered)) = itemOnClick (toolbarItemProps props)
  ∧ openOnMount (urlPicker rendered) = false.
Proof.
  cbn zeta.
  destruct (ButtonEdit_fields
              (propsFor props (editor (step props m (Shortcut (primaryShift "k") type))))
              (borderMemo (step props m (Shortcut (primaryShift "k") type))))
    as (_ & -> & _).
  cbn [propsFor blockAttributes]. rewrite step_unlink, !onRemove_attribute. cbn.
  repeat split.
  - intros key ? ? ?. rewrite onRemove_attribute.
    by repeat (case_bool_decide; [done|]).
  - unfold onRemove, andThen. destruct (String.eqb type "keydown"); cbn; lia.
Qed.

(** X11.  With a URL set the toolbar button is the active [Unlink]
    button, and a click on it does what the unlink shortcut does,
    whatever click handler the toolbar item brought along. *)
Theorem toolbar_click_unlinks_a_set_url (props : Props) (m : Mounted) (type : string) :
  truthy (attribute (attributes (editor m)) "url") = true →
  editor (step props m (ToolbarLinkClick type))
  = editor (step props m (Shortcut (primaryShift "k") type))
  ∧ toggleTitle
      (toggle (urlPicker (ButtonEdit (propsFor props (editor m)) (borderMemo m)).1))
    = __ "Unlink"
  ∧ isActive
      (toggle (urlPicker (ButtonEdit (propsFor props (editor m)) (borderMemo m)).1))
    = Some true.
Proof.
  intros Hurl. split; [by rewrite step_toolbar, step_unlink, Hurl|].
  destruct (ButtonEdit_fields (propsFor props (editor m)) (borderMemo m))
    as (_ & -> & _).
  cbn [URLPicker propsFor blockAttributes toggle]. by rewrite Hurl.
Qed.

(** X12.  A click on a width button stores its width, unless that width
    was the selected one, in which case the width is cleared; no other
    attribute moves.  After it the clicked button is the only primary
    one in the first case and no button is primary in the second.  A
    click where there is no button changes nothing. *)
Theorem width_click_toggles (props : Props) (m : Mounted) (index : nat) :
  let before := attribute (attributes (editor m)) "width" in
  let after := editor (step props m (WidthButtonClick index)) in
  match [25; 50; 75; 100]%Z !! index with
  | Some w =>
      attribute (attributes after) "width"
      = (if strictEq before (Num w) then Undefined else Num w)
      ∧ (∀ key, key ≠ "width" →
           attribute (attributes after) key = attribute (attributes (editor m)) key)
      ∧ isPrimary <$> WidthPanel (attribute (attributes after) "width")
        = (fun w' => negb (strictEq before (Num w)) && bool_decide (w' = w))
          <$> [25; 50; 75; 100]%Z
  | None => after = editor m
  end.
Proof.
  cbn zeta. rewrite step_width.
  set (before := attribute (attributes (editor m)) "width").
  do 4 (destruct index as [|index];
        [ cbn [lookup list_lookup];
          unfold handleChange; rewrite !attribute_updated;
          split; [by simplify_map_eq|];
          split; [intros key ?; rewrite attribute_updated; by simplify_map_eq|];
          simplify_map_eq; by destruct (strictEq before _) |]).
  reflexivity.
Qed.

(** X13.  Whatever the [width] attribute holds, at most one of the four
    width buttons is primary, and one is exactly when the attribute is
    the number 25, 50, 75 or 100. *)
Theorem at_most_one_width_button_is_primary (selectedWidth : value) :
  length (List.filter isPrimary (WidthPanel selectedWidth)) ≤ 1
  ∧ (length (List.filter isPrimary (WidthPanel selectedWidth)) = 1
     ↔ ∃ w, w ∈ [25; 50; 75; 100]%Z ∧ selectedWidth = Num w).
Proof.
  unfold WidthPanel, strictEq. cbn [fmap list_fmap List.filter isPrimary].
  repeat case_bool_decide; subst; try discriminate; cbn; (split; [lia|]).
  all: split; intros Hx; try lia.
  all: try (eexists; split; [|reflexivity]; repeat constructor).
  destruct Hx as (w & Hw & ->).
  repeat (apply elem_of_cons in Hw as [-> | Hw]; [done|]).
  by apply elem_of_nil in Hw.
Qed.

(** *** The radius callback that [useCallback] keeps *)

Lemma BorderPanel_first (borderRadius : value) (dep : nat) :
  let initial := if strictEq borderRadius Undefined then Str "" else borderRadius in
  rangeValue (BorderPanel borderRadius dep None).1 = initial
  ∧ memoOf dep initial (BorderPanel borderRadius dep None).2
  ∧ ∀ v, rangeOnChange (BorderPanel borderRadius dep None).1 v
         = setAttributes
             {[ "borderRadius" := if strictEq v Undefined then initial else v ]}.
Proof.
  cbn zeta. unfold BorderPanel, useCallback. cbn.
  assert (∀ v,
            (if strictEq v Undefined
             then setAttributes
                    {[ "borderRadius" :=
                         if strictEq borderRadius Undefined then Str "" else borderRadius ]}
             else setAttributes {[ "borderRadius" := v ]})
            = setAttributes
                {[ "borderRadius" :=
                     if strictEq v Undefined
                     then if strictEq borderRadius Undefined then Str "" else borderRadius
                     else v ]}) as Hcb
    by (intros v; by destruct (strictEq v Undefined)).
  split; [done|]. split; [|exact Hcb]. eexists. split; [reflexivity|]. exact Hcb.
Qed.

Lemma BorderPanel_cached (borderRadius initial : value) (dep : nat)
    (memo : option (nat * (value → Action))) :
  memoOf dep initial memo →
  (BorderPanel borderRadius dep memo).2 = memo
  ∧ ∀ v, rangeOnChange (BorderPanel borderRadius dep memo).1 v
         = setAttributes
             {[ "borderRadius" := if strictEq v Undefined then initial else v ]}.
Proof.
  intros (callback & -> & Hcb). unfold BorderPanel, useCallback.
  rewrite Nat.eqb_refl. cbn. split; [done | exact Hcb].
Qed.

(** From the first render on the memo is the callback of that render. *)
Lemma memo_after_step (props : Props) (m : Mounted) (e : event) (initial : value) :
  (borderMemo m = None
   ∧ initial = (if strictEq (attribute (attributes (editor m)) "borderRadius") Undefined
                then Str ""
                else attribute (attributes (editor m)) "borderRadius"))
  ∨ memoOf (setAttributesId props) initial (borderMemo m) →
  memoOf (setAttributesId props) initial (borderMemo (step props m e))
  ∧ ∀ v, editor (step props m (RangeControlChange v))
         = setAttributes
             {[ "borderRadius" := if strictEq v Undefined then initial else v ]}
             (editor m).
Proof.
  intros Hmemo.
  assert (∀ e', step props m e'
                = {| editor :=
                       dispatch
                         (ButtonEdit (propsFor props (editor m)) (borderMemo m)).1 e'
                         (editor m);
                     borderMemo :=
                       (BorderPanel (attribute (attributes (editor m)) "borderRadius")
                          (setAttributesId props) (borderMemo m)).2 |}
                ∧ borderPanel (ButtonEdit (propsFor props (editor m)) (borderMemo m)).1
                  = (BorderPanel (attribute (attributes (editor m)) "borderRadius")
                       (setAttributesId props) (borderMemo m)).1) as Hstep.
  { intros e'. rewrite step_unfold.
    by destruct (ButtonEdit_fields (propsFor props (editor m)) (borderMemo m))
      as (_ & _ & -> & -> & _). }
  assert (memoOf (setAttributesId props) initial
            (BorderPanel (attribute (attributes (editor m)) "borderRadius")
               (setAttributesId props) (borderMemo m)).2
          ∧ ∀ v, rangeOnChange
                   (BorderPanel (attribute (attributes (editor m)) "borderRadius")
                      (setAttributesId props) (borderMemo m)).1 v
                 = setAttributes
                     {[ "borderRadius" := if strictEq v Undefined then initial else v ]})
    as [Hm Hcb].
  { destruct Hmemo as [[-> ->] | Hmemo].
    - by destruct (BorderPanel_first
                     (attribute (attributes (editor m)) "borderRadius")
                     (setAttributesId props)) as (_ & ? & ?).
    - destruct (BorderPanel_cached
                  (attribute (attributes (editor m)) "borderRadius") initial
                  (setAttributesId props) (borderMemo m) Hmemo) as (-> & ?).
      by split. }
  split.
  - destruct (Hstep e) as [-> _]. exact Hm.
  - intros v. destruct (Hstep (RangeControlChange v)) as [-> Hborder].
    cbn [editor dispatch]. by rewrite Hborder, Hcb.
Qed.

Lemma memo_along_a_run (props : Props) (a0 : gmap string value) (events : list event) :
  let initial :=
    if strictEq (attribute a0 "borderRadius") Undefined then Str ""
    else attribute a0 "borderRadius" in
  let m := run props (mount a0) events in
  (borderMemo m = None ∧ attributes (editor m) = a0)
  ∨ memoOf (setAttributesId props) initial (borderMemo m).
Proof.
  cbn zeta. unfold run. induction events as [|e events IH] using rev_ind.
  - by left.
  - rewrite fold_left_app. cbn [fold_left]. right.
    apply memo_after_step. destruct IH as [[Hnone Ha] | Hmemo]; [left | by right].
    split; [exact Hnone | by rewrite Ha].
Qed.

(** X16.  As long as the block is passed the same [setAttributes], the
    radius callback is the one [useCallback] kept from the first
    render.  So after any sequence of events a reset of the slider
    stores the radius the block had when it was first rendered, the
    empty string when it had none, and not the latest one; a value
    picked on the slider is stored as it is.  Nothing but
    [borderRadius] changes. *)
Theorem reset_restores_the_radius_of_the_first_render
    (props : Props) (a0 : gmap string value) (events : list event) (v : value) :
  let initial :=
    if strictEq (attribute a0 "borderRadius") Undefined then Str ""
    else attribute a0 "borderRadius" in
  let after := run props (mount a0) (events ++ [RangeControlChange v]) in
  attribute (attributes (editor after)) "borderRadius"
  = (if strictEq v Undefined then initial else v)
  ∧ ∀ key, key ≠ "borderRadius" →
      attribute (attributes (editor after)) key
      = attribute (attributes (editor (run props (mount a0) events))) key.
Proof.
  cbn zeta. unfold run. rewrite fold_left_app. cbn [fold_left].
  fold (run props (mount a0) events).
  set (m := run props (mount a0) events).
  pose proof (memo_along_a_run props a0 events) as Hmemo. cbn zeta in Hmemo. fold m in Hmemo.
  edestruct (memo_after_step props m (RangeControlChange v)) as [_ Hreset].
  { destruct Hmemo as [[Hnone Ha] | Hmemo]; [left | right; exact Hmemo].
    split; [exact Hnone | by rewrite Ha]. }
  rewrite Hreset. split.
  - rewrite attribute_updated. by simplify_map_eq.
  - intros key ?. rewrite attribute_updated. by simplify_map_eq.
Qed.

(** *** A link in a new tab keeps a [rel] *)

Lemma step_keeps_rel_guard (props : Props) (m : Mounted) (e : event) (initial : value) :
  (borderMemo m = None
   ∧ initial = (if strictEq (attribute (attributes (editor m)) "borderRadius") Undefined
                then Str ""
                else attribute (attributes (editor m)) "borderRadius"))
  ∨ memoOf (setAttributesId props) initial (borderMemo m) →
  itemLeavesAttributes props →
  (∀ v, e ≠ LinkRelChange v) →
  relGuardsNewTab (attributes (editor m)) →
  relGuardsNewTab (attributes (editor (step props m e))).
Proof.
  intros Hmemo Hitem Hnot Hguard. unfold relGuardsNewTab in *.
  destruct e as [newText | newURL tab | type | keys type | v | index | v].
  - rewrite step_rich_text. unfold setButtonText.
    rewrite !attribute_updated. by simplify_map_eq.
  - rewrite step_link_change. unfold andThen.
    destruct (negb (strictEq _ tab)).
    + unfold onToggleOpenInNewTab. rewrite !attribute_updated. simplify_map_eq.
      destruct (truthy tab); cbn; [|done]. intros _.
      by destruct (truthy (attribute (attributes (editor m)) "rel")) eqn:Hrel.
    + unfold skip. rewrite !attribute_updated. by simplify_map_eq.
  - rewrite step_toolbar.
    destruct (truthy (attribute (attributes (editor m)) "url"));
      [by rewrite !onRemove_attribute|].
    destruct (itemOnClick (toolbarItemProps props)) as [handler|] eqn:Hh; [|done].
    by rewrite (Hitem handler Hh).
  - rewrite step_shortcut. repeat case_bool_decide; [done | | done].
    by rewrite !onRemove_attribute.
  - by destruct (Hnot v).
  - rewrite step_width. destruct ([25; 50; 75; 100]%Z !! index); [|done].
    unfold handleChange. rewrite !attribute_updated. by simplify_map_eq.
  - destruct (memo_after_step props m (RangeControlChange v) initial Hmemo)
      as [_ ->].
    rewrite !attribute_updated. by simplify_map_eq.
Qed.

(** X8.  From a block whose link has a non-empty [rel] whenever it opens
    in a new tab, no sequence of events other than edits of the
    [Link rel] field leads to a new-tab link without a [rel], provided
    the click handler the toolbar item brings along leaves the block's
    attributes alone. *)
Theorem new_tab_keeps_a_rel
    (props : Props) (a0 : gmap string value) (events : list event) :
  itemLeavesAttributes props →
  Forall (fun e => ∀ v, e ≠ LinkRelChange v) events →
  relGuardsNewTab a0 →
  relGuardsNewTab (attributes (editor (run props (mount a0) events))).
Proof.
  intros Hitem Hevents Hguard. induction events as [|e events IH] using rev_ind; [done|].
  apply Forall_app in Hevents as [Hevents He].
  rewrite Forall_singleton in He.
  unfold run. rewrite fold_left_app. cbn [fold_left].
  fold (run props (mount a0) events).
  pose proof (memo_along_a_run props a0 events) as Hmemo. cbn zeta in Hmemo.
  eapply step_keeps_rel_guard; [|exact Hitem | exact He | by apply IH].
  destruct Hmemo as [[Hnone Ha] | Hmemo]; [left | right; exact Hmemo].
  split; [exact Hnone | by rewrite Ha].
Qed.

(** X9.  The [Link rel] field is the exception: emptying it on a link
    that opens in a new tab stores the empty [rel] next to the
    ['_blank'] target. *)
Theorem link_rel_field_can_empty_the_rel (props : Props) (m : Mounted) :
  strictEq (attribute (attributes (editor m)) "linkTarget") (Str "_blank") = true →
  ¬ relGuardsNewTab (attributes (editor (step props m (LinkRelChange (Str ""))))).
Proof.
  intros Hblank Hguard. unfold relGuardsNewTab in Hguard.
  rewrite step_link_rel in Hguard. unfold onSetLinkRel in Hguard.
  rewrite !attribute_updated in Hguard. simplify_map_eq.
  by specialize (Hguard Hblank).
Qed.

(** *** The width stays one of those on offer *)

Lemma step_keeps_width_on_offer (props : Props) (m : Mounted) (e : event)
    (initial : value) :
  (borderMemo m = None
   ∧ initial = (if strictEq (attribute (attributes (editor m)) "borderRadius") Undefined
                then Str ""
                else attribute (attributes (editor m)) "borderRadius"))
  ∨ memoOf (setAttributesId props) initial (borderMemo m) →
  itemLeavesAttributes props →
  widthOnOffer (attributes (editor m)) →
  widthOnOffer (attributes (editor (step props m e))).
Proof.
  intros Hmemo Hitem Hwidth. unfold widthOnOffer in *.
  destruct e as [newText | newURL tab | type | keys type | v | index | v].
  - rewrite step_rich_text. unfold setButtonText.
    rewrite !attribute_updated. by simplify_map_eq.
  - rewrite step_link_change. unfold andThen.
    destruct (negb (strictEq _ tab)).
    + unfold onToggleOpenInNewTab. rewrite !attribute_updated. by simplify_map_eq.
    + unfold skip. rewrite !attribute_updated. by simplify_map_eq.
  - rewrite step_toolbar.
    destruct (truthy (attribute (attributes (editor m)) "url"));
      [by rewrite !onRemove_attribute|].
    destruct (itemOnClick (toolbarItemProps props)) as [handler|] eqn:Hh; [|done].
    by rewrite (Hitem handler Hh).
  - rewrite step_shortcut. repeat case_bool_decide; [done | | done].
    by rewrite !onRemove_attribute.
  - rewrite step_link_rel. unfold onSetLinkRel.
    rewrite !attribute_updated. by simplify_map_eq.
  - rewrite step_width. destruct ([25; 50; 75; 100]%Z !! index) as [w|] eqn:Hw; [|done].
    unfold handleChange. rewrite !attribute_updated. simplify_map_eq.
    destruct (strictEq _ (Num w)); [by left | right].
    exists w. split; [|done]. by eapply list_elem_of_lookup_2.
  - destruct (memo_after_step props m (RangeControlChange v) initial Hmemo)
      as [_ ->].
    rewrite !attribute_updated. by simplify_map_eq.
Qed.

(** X14.  From a block whose width is unset or one of 25, 50, 75 and
    100, every sequence of events leaves the width unset or one of
    these, provided the click handler the toolbar item brings along
    leaves the block's attributes alone. *)
Theorem width_stays_on_offer
    (props : Props) (a0 : gmap string value) (events : list event) :
  itemLeavesAttributes props →
  widthOnOffer a0 →
  widthOnOffer (attributes (editor (run props (mount a0) events))).
Proof.
  intros Hitem Hwidth. induction events as [|e events IH] using rev_ind; [done|].
  unfold run. rewrite fold_left_app. cbn [fold_left].
  fold (run props (mount a0) events).
  pose proof (memo_along_a_run props a0 events) as Hmemo. cbn zeta in Hmemo.
  eapply step_keeps_width_on_offer; [|exact Hitem | exact IH].
  destruct Hmemo as [[Hnone Ha] | Hmemo]; [left | right; exact Hmemo].
  split; [exact Hnone | by rewrite Ha].
Qed.

(** *** Class names and the inline radius *)


Lemma ButtonEdit_look (props : Props) (memo : option (nat * (value → Action))) :
  let attributes := blockAttributes props in
  let v := (ButtonEdit props memo).1 in
  let colorProps := getColorAndStyleProps props attributes in
  wrapperClassName v
  = classnames
      [ ClassValue (blockPropsClassName props);
        ClassMap
          [ ("has-custom-width wp-block-button__width-"
               +:+ toString (attribute attributes "width"),
             attribute attributes "width") ] ]
  ∧ richTextClassName v
    = classnames
        [ ClassValue (className props);
          ClassValue (Str "wp-block-button__link");
          ClassValue (colorClassName colorProps);
          ClassMap
            [ ("no-border-radius",
               Bool (strictEq (attribute attributes "borderRadius") (Num 0))) ] ]
  ∧ richTextStyle v
    = colorStyle colorProps
      ∪ {[ "borderRadius" :=
             if truthy (attribute attributes "borderRadius")
             then Str (toString (attribute attributes "borderRadius") +:+ "px")
             else Undefined ]}.
Proof.
  cbn zeta. unfold ButtonEdit.
  destruct (BorderPanel _ _ _) as [border memo']. by repeat split.
Qed.


(** X15.  After a click on the button for the width [w] the wrapper's
    class is the one of [useBlockProps] followed by
    ['has-custom-width wp-block-button__width-' + w], or the one of
    [useBlockProps] alone when the click cleared the width. *)
Theorem width_click_shows_in_the_wrapper_class
    (props : Props) (m : Mounted) (index : nat) (w : Z) :
  [25; 50; 75; 100]%Z !! index = Some w →
  let before := attribute (attributes (editor m)) "width" in
  let after := step props m (WidthButtonClick index) in
  wrapperClassName (ButtonEdit (propsFor props (editor after)) (borderMemo after)).1
  = JS.join " "
      (classTokens (ClassValue (blockPropsClassName props))
       ++ (if strictEq before (Num w) then []
           else ["has-custom-width wp-block-button__width-" +:+ pretty w])).
Proof.
  cbn zeta. intros Hw.
  destruct (ButtonEdit_look
              (propsFor props (editor (step props m (WidthButtonClick index))))
              (borderMemo (step props m (WidthButtonClick index)))) as (-> & _).
  cbn [propsFor blockAttributes blockPropsClassName].
  rewrite step_width, Hw. unfold handleChange. rewrite attribute_updated.
  simplify_map_eq. unfold classnames. cbn [fmap list_fmap concat].
  rewrite app_nil_r. do 2 f_equal.
  destruct (strictEq (attribute (attributes (editor m)) "width") (Num w)); [done|].
  do 4 (destruct index as [|index]; [by injection Hw as <-|]). done.
Qed.

End Editing.

(** *** The statements above on concrete texts and blocks *)

Import ButtonSample.

Lemma anchor_element_leaves_its_label_witness :
  JS.occurs ">" " href=/shop" = false
  ∧ JS.occurs "<" "Buy now" = false
  ∧ replaceAnchorTags "<a href=/shop>Buy now</a>" = "Buy now".
Proof.
  split; [reflexivity|]. split; [reflexivity|].
  exact (anchor_element_leaves_its_label " href=/shop" "Buy now" eq_refl eq_refl).
Defined.

Lemma text_before_first_lt_is_kept_witness :
  JS.occurs "<" "Buy > sell " = false
  ∧ replaceAnchorTags "Buy > sell <a>now</a>" = "Buy > sell now".
Proof.
  split; [reflexivity|].
  exact (proj1 (text_before_first_lt_is_kept "Buy > sell " "<a>now</a>" eq_refl)).
Defined.

Lemma replaceAnchorTags_never_grows_witness :
  is_Some (anchorTagAt "<abbr>now")
  ∧ String.length (replaceAnchorTags "<abbr>now") < String.length "<abbr>now".
Proof.
  split; [by eexists|].
  exact (proj2 (replaceAnchorTags_never_grows "<abbr>now") (ex_intro _ 6 eq_refl)).
Defined.

Lemma one_pass_can_leave_an_anchor_tag_witness :
  JS.occurs "<" " href=/shop" = false
  ∧ JS.occurs ">" " href=/shop" = false
  ∧ replaceAnchorTags "<<a>a href=/shop>" = "<a href=/shop>"
  ∧ replaceAnchorTags "<a href=/shop>" = "".
Proof.
  split; [reflexivity|]. split; [reflexivity|].
  destruct (one_pass_can_leave_an_anchor_tag " href=/shop" eq_refl eq_refl)
    as (Hleft & _ & Hagain).
  split; [exact Hleft | exact Hagain].
Defined.


Lemma link_change_sets_url_and_target_witness :
  "text" ≠ "url" ∧ "text" ≠ "linkTarget" ∧ "text" ≠ "rel"
  ∧ attribute
      (attributes
         (editor (@step Sample.android (block plain) (mount plain)
                    (LinkControlChange Undefined (Bool true)))))
      "text"
    = Str "Buy".
Proof.
  split; [discriminate|]. split; [discriminate|]. split; [discriminate|].
  destruct (@link_change_sets_url_and_target Sample.android (block plain)
              (mount plain) Undefined (Bool true)) as (_ & _ & Hrest).
  exact (Hrest "text" ltac:(discriminate) ltac:(discriminate) ltac:(discriminate)).
Defined.

Lemma new_tab_on_and_off_witness :
  strictEq (attribute (attributes (editor (mount linked))) "linkTarget") (Str "_blank")
  = false
  ∧ attribute
      (attributes
         (editor
            (@step Sample.android (block linked)
               (@step Sample.android (block linked) (mount linked)
                  (LinkControlChange (Str "https://example.org/shop") (Bool true)))
               (LinkControlChange (Str "https://example.org/shop") (Bool false)))))
      "rel"
    = Str "nofollow".
Proof.
  split; [reflexivity|].
  destruct (@new_tab_on_and_off Sample.android (block linked) (mount linked)
              (Str "https://example.org/shop") (Str "https://example.org/shop")
              eq_refl) as (_ & _ & _ & Hrel).
  exact Hrel.
Defined.

Lemma unlink_clears_the_link_witness :
  "width" ≠ "url" ∧ "width" ≠ "linkTarget" ∧ "width" ≠ "rel"
  ∧ attribute
      (attributes
         (editor (@step Sample.android (block linked) (mount linked)
                    (Shortcut (primaryShift "k") "keydown"))))
      "width"
    = Num 50.
Proof.
  split; [discriminate|]. split; [discriminate|]. split; [discriminate|].
  destruct (@unlink_clears_the_link Sample.android (block linked) (mount linked)
              "keydown") as (_ & _ & _ & Hrest & _).
  exact (Hrest "width" ltac:(discriminate) ltac:(discriminate) ltac:(discriminate)).
Defined.

Lemma toolbar_click_unlinks_a_set_url_witness :
  truthy (attribute (attributes (editor (mount linked))) "url") = true
  ∧ editor (@step Sample.android (block linked) (mount linked) (ToolbarLinkClick "click"))
    = editor (@step Sample.android (block linked) (mount linked)
                (Shortcut (primaryShift "k") "click")).
Proof.
  split; [reflexivity|].
  exact (proj1 (@toolbar_click_unlinks_a_set_url Sample.android (block linked)
                  (mount linked) "click" eq_refl)).
Defined.

Lemma sample_item_leaves_attributes (a : gmap string value) :
  itemLeavesAttributes (block a).
Proof. intros handler [= <-] type ed. reflexivity. Defined.

Lemma width_click_toggles_witness :
  "url" ≠ "width"
  ∧ attribute
      (attributes
         (editor (@step Sample.android (block linked) (mount linked)
                    (WidthButtonClick 1))))
      "url"
    = Str "https://example.org/shop".
Proof.
  split; [discriminate|].
  exact (proj1 (proj2 (@width_click_toggles Sample.android (block linked)
                         (mount linked) 1)) "url" ltac:(discriminate)).
Defined.

Lemma at_most_one_width_button_is_primary_witness :
  (∃ w, w ∈ [25; 50; 75; 100]%Z ∧ Num 75 = Num w)
  ∧ length (List.filter isPrimary (WidthPanel (Num 75))) = 1.
Proof.
  assert (∃ w, w ∈ [25; 50; 75; 100]%Z ∧ Num 75 = Num w) as Hoffer.
  { exists 75%Z. split; [|reflexivity]. repeat constructor. }
  split; [exact Hoffer|].
  exact (proj2 (proj2 (at_most_one_width_button_is_primary (Num 75))) Hoffer).
Defined.

Lemma reset_restores_the_radius_of_the_first_render_witness :
  "text" ≠ "borderRadius"
  ∧ attribute
      (attributes
         (editor (@run Sample.android (block rounded) (mount rounded)
                    ([RangeControlChange (Num 30); RangeControlChange (Num 4)]
                     ++ [RangeControlChange Undefined]))))
      "borderRadius"
    = Num 12
  ∧ attribute
      (attributes
         (editor (@run Sample.android (block rounded) (mount rounded)
                    ([RangeControlChange (Num 30); RangeControlChange (Num 4)]
                     ++ [RangeControlChange Undefined]))))
      "text"
    = Str "Buy".
Proof.
  split; [discriminate|].
  destruct (@reset_restores_the_radius_of_the_first_render Sample.android
              (block rounded) rounded
              [RangeControlChange (Num 30); RangeControlChange (Num 4)] Undefined)
    as [Hradius Hrest].
  split; [exact Hradius|]. exact (Hrest "text" ltac:(discriminate)).
Defined.

Lemma new_tab_keeps_a_rel_witness :
  itemLeavesAttributes (block plain)
  ∧ Forall (fun e => ∀ v, e ≠ LinkRelChange v)
    [ LinkControlChange (Str "https://example.org") (Bool true);
      RichTextChange "Buy now"; WidthButtonClick 0 ]
  ∧ relGuardsNewTab plain
  ∧ relGuardsNewTab
      (attributes
         (editor (@run Sample.android (block plain) (mount plain)
                    [ LinkControlChange (Str "https://example.org") (Bool true);
                      RichTextChange "Buy now"; WidthButtonClick 0 ]))).
Proof.
  assert (Forall (fun e => ∀ v, e ≠ LinkRelChange v)
            [ LinkControlChange (Str "https://example.org") (Bool true);
              RichTextChange "Buy now"; WidthButtonClick 0 ]) as Hevents
    by (repeat constructor; discriminate).
  assert (relGuardsNewTab plain) as Hplain by (intros Hblank; discriminate Hblank).
  split; [apply sample_item_leaves_attributes|].
  split; [exact Hevents|]. split; [exact Hplain|].
  exact (@new_tab_keeps_a_rel Sample.android (block plain) plain _
           (sample_item_leaves_attributes plain) Hevents Hplain).
Defined.

Lemma link_rel_field_can_empty_the_rel_witness :
  strictEq (attribute (attributes (editor (mount inNewTab))) "linkTarget") (Str "_blank")
  = true
  ∧ ¬ relGuardsNewTab
        (attributes
           (editor (@step Sample.android (block inNewTab) (mount inNewTab)
                      (LinkRelChange (Str ""))))).
Proof.
  split; [reflexivity|].
  exact (@link_rel_field_can_empty_the_rel Sample.android (block inNewTab)
           (mount inNewTab) eq_refl).
Defined.

Lemma width_stays_on_offer_witness :
  itemLeavesAttributes (block linked)
  ∧ widthOnOffer linked
  ∧ widthOnOffer
      (attributes
         (editor (@run Sample.android (block linked) (mount linked)
                    [ WidthButtonClick 1; WidthButtonClick 3; RangeControlChange (Num 7) ]))).
Proof.
  assert (widthOnOffer linked) as Hlinked.
  { right. exists 50%Z. split; [repeat constructor | reflexivity]. }
  split; [apply sample_item_leaves_attributes|].
  split; [exact Hlinked|].
  exact (@width_stays_on_offer Sample.android (block linked) linked _
           (sample_item_leaves_attributes linked) Hlinked).
Defined.

Lemma width_click_shows_in_the_wrapper_class_witness :
  [25; 50; 75; 100]%Z !! 2 = Some 75%Z
  ∧ wrapperClassName
      (@ButtonEdit Sample.android
         (propsFor (block plain)
            (editor (@step Sample.android (block plain) (mount plain)
                       (WidthButtonClick 2))))
         (borderMemo (@step Sample.android (block plain) (mount plain)
                        (WidthButtonClick 2)))).1
    = "wp-block-button has-custom-width wp-block-button__width-75".
Proof.
  split; [reflexivity|].
  exact (@width_click_shows_in_the_wrapper_class Sample.android (block plain)
           (mount plain) 2 75 eq_refl).
Defined.

End ButtonFacts.

(** ** Facts about runs of the Player *)

Module RunFacts.
Import JS AudioPlayer Runs.

Section Running.
Context `{Host}.

(** One event, spelled out. *)
Lemma step_spelled_out (props : Props) (net : Linking) (w : World) (e : event) :
  step props net w e
  = {| paused := Spec.pausedAfter (paused w) e;
       player := match e with RefCallback r => r | _ => player w end;
       log := log w ++ match e with
                       | PressListen => pressEffects props net (player w)
                       | _ => []
                       end |}.
Proof.
  assert (∀ w : World, w = {| paused := paused w; player := player w;
                              log := log w ++ [] |}) as Hw.
  { intros [? ? ?]. cbn. by rewrite app_nil_r. }
  unfold step.
  destruct (PlayerFacts.Player_handlers props (paused w))
    as (v & -> & _ & Href & Hwill & Hdid & Hlisten).
  destruct e as [| | |r]; unfold dispatch; cbn [Spec.pausedAfter].
  - unfold pressEffects. destruct (listen v) as [control|];
      destruct (isDisabled props); try discriminate.
    + injection Hlisten as ->. by rewrite PlayerFacts.onPressListen_run.
    + cbn. by rewrite <- Hw.
  - rewrite Hwill. cbn. by rewrite app_nil_r.
  - rewrite Hdid. cbn. by rewrite app_nil_r.
  - rewrite Href. cbn. by rewrite app_nil_r.
Qed.

Lemma run_cons (props : Props) (net : Linking) (w : World) (e : event)
    (events : list event) :
  run props net w (e :: events) = run props net (step props net w e) events.
Proof. reflexivity. Qed.

Lemma count_app (p : effect → bool) (l1 l2 : list effect) :
  count p (l1 ++ l2) = count p l1 + count p l2.
Proof. unfold count. by rewrite List.filter_app, length_app. Qed.

Lemma pressEffects_counts (props : Props) (net : Linking) (held : option playerRef) :
  let added := pressEffects props net held in
  count isCheck added + count isPresent added ≤ 1
  ∧ count isAlert added ≤ count isCheck added
  ∧ count isOpen added ≤ count isCheck added
  ∧ (isIOS = false ∨ held = None → count isPresent added = 0).
Proof.
  cbn zeta. unfold pressEffects.
  destruct (isDisabled props); [cbn; repeat split; lia|].
  destruct (source props) as [url|]; [|cbn; repeat split; lia].
  destruct (truthy (Some url)); [|cbn; repeat split; lia].
  assert (count isCheck (Spec.pressOutcome net url) = 1
          ∧ count isPresent (Spec.pressOutcome net url) = 0
          ∧ count isAlert (Spec.pressOutcome net url) ≤ 1
          ∧ count isOpen (Spec.pressOutcome net url) ≤ 1) as (Hc & Hp & Ha & Ho).
  { unfold Spec.pressOutcome.
    destruct (canOpenURL_settles net url) as [[|]|r];
      [destruct (openURL_settles net url) as [u|r']| |]; cbn; repeat split; lia. }
  destruct isIOS, held as [ref|]; try (repeat split; intros; lia).
  cbn. repeat split; try lia. by intros [? | ?].
Qed.

(** X18.  Along any sequence of events the log only grows, and what is
    added holds at most as many capability checks and fullscreen calls
    together as there were presses, never more alerts than checks and
    never more opens than checks. *)
Theorem checks_alerts_and_opens_along_a_run
    (props : Props) (net : Linking) (w : World) (events : list event) :
  ∃ added,
    log (run props net w events) = log w ++ added
    ∧ count isCheck added + count isPresent added
      ≤ length (List.filter isPress events)
    ∧ count isAlert added ≤ count isCheck added
    ∧ count isOpen added ≤ count isCheck added.
Proof.
  revert w. induction events as [|e events IH]; intros w.
  - exists []. cbn. rewrite app_nil_r. repeat split; lia.
  - rewrite run_cons. destruct (IH (step props net w e)) as (rest & Hlog & Hn & Ha & Ho).
    eexists. split;
      [rewrite Hlog, step_spelled_out; cbn [log]; by rewrite <- app_assoc|].
    rewrite !count_app. destruct e; cbn [List.filter isPress length]; cbn [count List.filter length];
      try (repeat split; lia).
    destruct (pressEffects_counts props net (player w)) as (H1 & H2 & H3 & _).
    repeat split; lia.
Qed.

(** X19.  The fullscreen player is never presented off iOS, and on iOS
    never before the [ref] callback has handed over a reference. *)
Theorem fullscreen_needs_ios_and_a_ref
    (props : Props) (net : Linking) (w : World) (events : list event) :
  isIOS = false
  ∨ (player w = None ∧ Forall (fun e => ∀ ref, e ≠ RefCallback (Some ref)) events) →
  ∃ added,
    log (run props net w events) = log w ++ added
    ∧ count isPresent added = 0.
Proof.
  revert w. induction events as [|e events IH]; intros w Hwhy.
  - exists []. cbn. by rewrite app_nil_r.
  - rewrite run_cons. destruct (IH (step props net w e)) as (rest & Hlog & Hnone).
    { destruct Hwhy as [Hios | [Hheld Hrefs]]; [by left | right].
      apply Forall_cons in Hrefs as [He Hrefs]. split; [|exact Hrefs].
      rewrite step_spelled_out. cbn [player].
      destruct e as [| | |[ref|]]; try done. by destruct (He ref). }
    eexists. split;
      [rewrite Hlog, step_spelled_out; cbn [log]; by rewrite <- app_assoc|].
    rewrite count_app, Hnone. destruct e; try reflexivity.
    destruct (pressEffects_counts props net (player w)) as (_ & _ & _ & Hzero).
    rewrite Hzero; [done|]. destruct Hwhy as [? | [? _]]; [by left | by right].
Qed.

Lemma run_of_refs (props : Props) (net : Linking) (w : World)
    (refs : list (option playerRef)) :
  run props net w (RefCallback <$> refs)
  = {| paused := paused w; player := default (player w) (last refs); log := log w |}.
Proof.
  revert w. induction refs as [|r refs IH]; intros w; [by destruct w|].
  cbn [fmap list_fmap]. rewrite run_cons, IH, step_spelled_out. cbn.
  rewrite app_nil_r. f_equal. rewrite last_cons. by destruct (last refs).
Qed.

(** X20.  On iOS, with the control enabled and a non-empty source, a
    press after any number of [ref] callbacks goes by the last of them:
    it presents the fullscreen player on the reference held, and falls
    back to the capability check when the last callback took the
    reference away or none was ever given. *)
Theorem press_follows_the_last_ref
    (props : Props) (net : Linking) (w : World) (url : string)
    (refs : list (option playerRef)) :
  isIOS = true →
  isDisabled props = false →
  source props = Some url → url ≠ "" →
  run props net w ((RefCallback <$> refs) ++ [PressListen])
  = {| paused := paused w;
       player := default (player w) (last refs);
       log := log w ++
         match default (player w) (last refs) with
         | Some ref => [PresentFullscreenPlayer ref]
         | None => Spec.pressOutcome net url
         end |}.
Proof.
  intros Hios Henabled Hsource Hurl.
  unfold run. rewrite fold_left_app. fold (run props net w (RefCallback <$> refs)).
  rewrite run_of_refs. cbn [fold_left]. rewrite step_spelled_out. cbn.
  unfold pressEffects. rewrite Henabled, Hsource, Hios.
  assert (truthy (Some url) = true) as ->
    by (apply negb_true_iff, String.eqb_neq, Hurl).
  by destruct (default (player w) (last refs)).
Qed.

(** X21.  With an absent or empty [source] a press leaves the world as
    it was: no check, no alert, and on iOS no fullscreen player even
    when a reference is held. *)
Theorem press_without_a_source_does_nothing
    (props : Props) (net : Linking) (w : World) :
  truthy (source props) = false →
  step props net w PressListen = w.
Proof.
  intros Hfalsy. rewrite step_spelled_out. cbn.
  assert (pressEffects props net (player w) = []) as ->.
  { unfold pressEffects. destruct (isDisabled props); [done|].
    destruct (source props) as [url|]; [|done]. by rewrite Hfalsy. }
  destruct w. cbn. by rewrite app_nil_r.
Qed.

End Running.

(** *** The statements above on concrete runs *)

Import Sample.

Lemma fullscreen_needs_ios_and_a_ref_witness :
  (@isIOS android = false
   ∨ (player withPlayer = None
      ∧ Forall (fun e => ∀ ref, e ≠ RefCallback (Some ref))
          [RefCallback (Some 9); PressListen; PressListen]))
  ∧ ∃ added,
      log (@run android song refusing withPlayer
             [RefCallback (Some 9); PressListen; PressListen])
      = log withPlayer ++ added
      ∧ count isPresent added = 0.
Proof.
  split; [left; reflexivity|].
  exact (@fullscreen_needs_ios_and_a_ref android song refusing withPlayer
           [RefCallback (Some 9); PressListen; PressListen] (or_introl eq_refl)).
Defined.

Lemma press_follows_the_last_ref_witness :
  @isIOS ios = true
  ∧ @isDisabled song = false
  ∧ source song = Some "https://example.org/a/song.final.mp3"
  ∧ "https://example.org/a/song.final.mp3" ≠ ""
  ∧ log (@run ios song working mounted
           ((RefCallback <$> [Some 3; None; Some 5]) ++ [PressListen]))
    = [PresentFullscreenPlayer 5].
Proof.
  split; [reflexivity|]. split; [reflexivity|]. split; [reflexivity|].
  split; [discriminate|].
  exact (f_equal log
           (@press_follows_the_last_ref ios song working mounted
              "https://example.org/a/song.final.mp3" [Some 3; None; Some 5]
              eq_refl eq_refl eq_refl ltac:(discriminate))).
Defined.

Lemma press_without_a_source_does_nothing_witness :
  truthy (source emptySource) = false
  ∧ @step ios emptySource working withPlayer PressListen = withPlayer.
Proof.
  split; [reflexivity|].
  exact (@press_without_a_source_does_nothing ios emptySource working withPlayer
           eq_refl).
Defined.

End RunFacts.
